(** * ai-together-backend: the WebSocket image store of [main.go]

    A shallow embedding of [handleWebSocket] (main.go, lines 25-120) and of
    the library calls it relies on, followed by the properties of the
    message protocol.

    Go strings and byte slices are byte sequences; both are modelled by
    [string] (a list of 8-bit [ascii] characters).  The standard-library
    packages the handler calls ([strings], [encoding/base64],
    [encoding/json], [os]) are not part of the repository; each is
    modelled in a module of its own, named after the package, following
    the behaviour of the Go implementation. *)

From Stdlib Require Import ZArith Ascii String List Bool Lia.
From coqutil Require Import Z.bitblast.
From stdpp Require Import gmap strings.

Local Open Scope string_scope.
Local Open Scope Z_scope.
Local Set Warnings "-register-all".

(** ** Bytes *)

Definition byte_val (c : ascii) : Z := Z.of_N (N_of_ascii c).

(** [byte(v)]: conversion of an unsigned integer to a byte keeps the low
    eight bits. *)
Definition to_byte (v : Z) : ascii := ascii_of_N (Z.to_N (Z.land v 255)).

(** ** Package [strings] *)

Module strings.

(** [strings.HasPrefix(s, prefix)]. *)
Fixpoint HasPrefix (s prefix : string) {struct prefix} : bool :=
  match prefix, s with
  | EmptyString, _ => true
  | String p prefix', String c s' => Ascii.eqb c p && HasPrefix s' prefix'
  | String _ _, EmptyString => false
  end.

(** [strings.Index(s, sep)] for a one-byte separator: the position of the
    first occurrence, [-1] when there is none. *)
Fixpoint IndexByte (s : string) (sep : ascii) : Z :=
  match s with
  | EmptyString => -1
  | String c s' =>
      if Ascii.eqb c sep then 0
      else let i := IndexByte s' sep in if i <? 0 then -1 else i + 1
  end.

(** The slice expression [s[i:]] for [0 <= i <= len(s)]. *)
Fixpoint drop (n : nat) (s : string) : string :=
  match n, s with
  | O, _ => s
  | S n', String _ s' => drop n' s'
  | S _, EmptyString => EmptyString
  end.

Definition slice_from (s : string) (i : Z) : string := drop (Z.to_nat i) s.

Fixpoint contains (s : string) (c : ascii) : bool :=
  match s with
  | EmptyString => false
  | String a s' => Ascii.eqb a c || contains s' c
  end.

End strings.

(** ** Package [encoding/base64], [StdEncoding]

    The standard alphabet with [=] padding, not strict: the decoder skips
    carriage returns and line feeds and does not look at the unused low
    bits of the last group. *)

Module base64.

Definition encodeStd : string :=
  "ABCDEFGHIJKLMNOPQRSTUVWXYZabcdefghijklmnopqrstuvwxyz0123456789+/".

Definition padChar : ascii := "="%char.

Fixpoint nth_byte (s : string) (n : nat) : ascii :=
  match s, n with
  | EmptyString, _ => Ascii.zero
  | String c _, O => c
  | String _ s', S n' => nth_byte s' n'
  end.

(** [enc.encode[v]] *)
Definition encode (v : Z) : ascii := nth_byte encodeStd (Z.to_nat v).

Fixpoint find_byte (s : string) (c : ascii) (i : Z) : option Z :=
  match s with
  | EmptyString => None
  | String a s' => if Ascii.eqb a c then Some i else find_byte s' c (i + 1)
  end.

(** [enc.decodeMap[c]]; [None] stands for the entry [0xff] of the bytes
    outside the alphabet. *)
Definition decodeMap (c : ascii) : option Z := find_byte encodeStd c 0.

(** [Encoding.Encode]: three source bytes give four characters; a rest of
    one or two bytes is padded. *)
Fixpoint EncodeToString (src : string) : string :=
  match src with
  | EmptyString => EmptyString
  | String a EmptyString =>
      let val := Z.shiftl (byte_val a) 16 in
      String (encode (Z.land (Z.shiftr val 18) 63))
     (String (encode (Z.land (Z.shiftr val 12) 63))
     (String padChar (String padChar EmptyString)))
  | String a (String b EmptyString) =>
      let val := Z.lor (Z.shiftl (byte_val a) 16) (Z.shiftl (byte_val b) 8) in
      String (encode (Z.land (Z.shiftr val 18) 63))
     (String (encode (Z.land (Z.shiftr val 12) 63))
     (String (encode (Z.land (Z.shiftr val 6) 63))
     (String padChar EmptyString)))
  | String a (String b (String c rest)) =>
      let val := Z.lor (Z.lor (Z.shiftl (byte_val a) 16)
                              (Z.shiftl (byte_val b) 8)) (byte_val c) in
      String (encode (Z.land (Z.shiftr val 18) 63))
     (String (encode (Z.land (Z.shiftr val 12) 63))
     (String (encode (Z.land (Z.shiftr val 6) 63))
     (String (encode (Z.land val 63)) (EncodeToString rest))))
  end.

Definition isNewline (c : ascii) : bool :=
  Ascii.eqb c "010"%char || Ascii.eqb c "013"%char.

Fixpoint skipNewlines (s : string) : string :=
  match s with
  | String c s' => if isNewline c then skipNewlines s' else s
  | EmptyString => EmptyString
  end.

(** The tail of [decodeQuantum]: the four 6-bit values are packed into
    three bytes, of which [dlen - 1] are kept. *)
Definition quantum (dlen : nat) (d0 d1 d2 d3 : Z) : string :=
  let val := Z.lor (Z.lor (Z.lor (Z.shiftl d0 18) (Z.shiftl d1 12))
                          (Z.shiftl d2 6)) d3 in
  let b0 := to_byte (Z.shiftr val 16) in
  let b1 := to_byte (Z.shiftr val 8) in
  let b2 := to_byte val in
  match dlen with
  | 4%nat => String b0 (String b1 (String b2 EmptyString))
  | 3%nat => String b0 (String b1 EmptyString)
  | 2%nat => String b0 EmptyString
  | _ => EmptyString
  end.

Definition is_empty (s : string) : bool :=
  match s with EmptyString => true | _ => false end.

(** [Encoding.Decode] as the repetition of [decodeQuantum]; [dbuf] holds
    the values read so far in the current group of four, so its length is
    the loop index [j].  [None] is a [CorruptInputError]. *)
Fixpoint decodeLoop (dbuf : list Z) (src : string) : option string :=
  match src with
  | EmptyString =>
      match dbuf with
      | [] => Some EmptyString
      | _ => None
      end
  | String c rest =>
      match decodeMap c with
      | Some out =>
          match dbuf with
          | [d0; d1; d2] =>
              match decodeLoop [] rest with
              | Some t => Some (quantum 4 d0 d1 d2 out +:+ t)
              | None => None
              end
          | _ => decodeLoop (dbuf ++ [out]) rest
          end
      | None =>
          if isNewline c then decodeLoop dbuf rest
          else if negb (Ascii.eqb c padChar) then None
          else
            match dbuf with
            | [d0; d1] =>
                match skipNewlines rest with
                | String c' rest' =>
                    if Ascii.eqb c' padChar && is_empty (skipNewlines rest')
                    then Some (quantum 2 d0 d1 0 0)
                    else None
                | EmptyString => None
                end
            | [d0; d1; d2] =>
                if is_empty (skipNewlines rest)
                then Some (quantum 3 d0 d1 d2 0)
                else None
            | _ => None
            end
      end
  end.

(** [StdEncoding.DecodeString]. *)
Definition DecodeString (s : string) : option string := decodeLoop [] s.

End base64.

(** ** Package [unicode/utf8] *)

Module utf8.

(** [utf8.RuneError], the replacement character U+FFFD. *)
Definition RuneError : Z := 65533.

Definition in_range (lo hi v : Z) : bool := (lo <=? v) && (v <=? hi).

(** A continuation byte, [locb <= b <= hicb]. *)
Definition is_cont (b : Z) : bool := in_range 128 191 b.

(** The table [first] together with [acceptRanges]: for a leading byte,
    the length of the sequence and the range allowed for the second
    byte; [None] for the bytes that cannot start a sequence. *)
Definition first (p0 : Z) : option (nat * Z * Z) :=
  if in_range 194 223 p0 then Some (2%nat, 128, 191)
  else if p0 =? 224 then Some (3%nat, 160, 191)
  else if in_range 225 236 p0 then Some (3%nat, 128, 191)
  else if p0 =? 237 then Some (3%nat, 128, 159)
  else if in_range 238 239 p0 then Some (3%nat, 128, 191)
  else if p0 =? 240 then Some (4%nat, 144, 191)
  else if in_range 241 243 p0 then Some (4%nat, 128, 191)
  else if p0 =? 244 then Some (4%nat, 128, 143)
  else None.

(** [utf8.DecodeRune(p)] for a non-empty [p]: the rune and its width in
    bytes; an ill-formed sequence gives [(RuneError, 1)]. *)
Definition DecodeRune (p : string) : Z * nat :=
  match p with
  | EmptyString => (RuneError, 0%nat)
  | String c0 p1 =>
      let p0 := byte_val c0 in
      if p0 <? 128 then (p0, 1%nat)
      else
        match first p0 with
        | None => (RuneError, 1%nat)
        | Some (sz, lo, hi) =>
            match p1 with
            | EmptyString => (RuneError, 1%nat)
            | String c1 p2 =>
                let b1 := byte_val c1 in
                if negb (in_range lo hi b1) then (RuneError, 1%nat)
                else if (sz <=? 2)%nat then
                  (Z.lor (Z.shiftl (Z.land p0 31) 6) (Z.land b1 63), 2%nat)
                else
                  match p2 with
                  | EmptyString => (RuneError, 1%nat)
                  | String c2 p3 =>
                      let b2 := byte_val c2 in
                      if negb (is_cont b2) then (RuneError, 1%nat)
                      else if (sz <=? 3)%nat then
                        (Z.lor (Z.lor (Z.shiftl (Z.land p0 15) 12)
                                      (Z.shiftl (Z.land b1 63) 6))
                               (Z.land b2 63), 3%nat)
                      else
                        match p3 with
                        | EmptyString => (RuneError, 1%nat)
                        | String c3 _ =>
                            let b3 := byte_val c3 in
                            if negb (is_cont b3) then (RuneError, 1%nat)
                            else
                              (Z.lor (Z.lor (Z.lor
                                 (Z.shiftl (Z.land p0 7) 18)
                                 (Z.shiftl (Z.land b1 63) 12))
                                 (Z.shiftl (Z.land b2 63) 6))
                                 (Z.land b3 63), 4%nat)
                        end
                  end
            end
        end
  end.

Definition bytes3 (r : Z) : string :=
  String (to_byte (Z.lor 224 (Z.shiftr r 12)))
 (String (to_byte (Z.lor 128 (Z.land (Z.shiftr r 6) 63)))
 (String (to_byte (Z.lor 128 (Z.land r 63))) EmptyString)).

(** [utf8.EncodeRune]: surrogates and values past U+10FFFF are written as
    [RuneError]. *)
Definition EncodeRune (r : Z) : string :=
  if (0 <=? r) && (r <=? 127) then String (to_byte r) EmptyString
  else if (0 <=? r) && (r <=? 2047) then
    String (to_byte (Z.lor 192 (Z.shiftr r 6)))
   (String (to_byte (Z.lor 128 (Z.land r 63))) EmptyString)
  else if (r <? 0) || (1114111 <? r) || in_range 55296 57343 r then
    bytes3 RuneError
  else if r <=? 65535 then bytes3 r
  else
    String (to_byte (Z.lor 240 (Z.shiftr r 18)))
   (String (to_byte (Z.lor 128 (Z.land (Z.shiftr r 12) 63)))
   (String (to_byte (Z.lor 128 (Z.land (Z.shiftr r 6) 63)))
   (String (to_byte (Z.lor 128 (Z.land r 63))) EmptyString))).

End utf8.

(** ** Package [encoding/json]: [Unmarshal] into [ImageData] *)

(** main.go, lines 13-17.  The three fields are read from the JSON keys
    [command], [id] and [base64Img]. *)
Record ImageData : Type := mkImageData {
  Command : string;
  ID : string;
  Base64Img : string
}.

Module json.

Definition quote : ascii := "034"%char.
Definition backslash : ascii := "092"%char.

Definition isSpace (c : ascii) : bool :=
  Ascii.eqb c " "%char || Ascii.eqb c "009"%char
  || Ascii.eqb c "013"%char || Ascii.eqb c "010"%char.

Definition isDigit (c : ascii) : bool := utf8.in_range 48 57 (byte_val c).

Definition hexval (c : ascii) : option Z :=
  let v := byte_val c in
  if utf8.in_range 48 57 v then Some (v - 48)
  else if utf8.in_range 97 102 v then Some (v - 97 + 10)
  else if utf8.in_range 65 70 v then Some (v - 65 + 10)
  else None.

(** *** String literals: [unquoteBytes] *)

(** [getu4]: the value of a leading [\uXXXX], [None] for the result -1. *)
Definition getu4 (s : string) : option Z :=
  match s with
  | String b (String u (String h1 (String h2 (String h3 (String h4 _))))) =>
      if Ascii.eqb b backslash && Ascii.eqb u "u"%char then
        match hexval h1, hexval h2, hexval h3, hexval h4 with
        | Some d1, Some d2, Some d3, Some d4 =>
            Some (((d1 * 16 + d2) * 16 + d3) * 16 + d4)
        | _, _, _, _ => None
        end
      else None
  | _ => None
  end.

(** [utf16.IsSurrogate] *)
Definition IsSurrogate (r : Z) : bool := (55296 <=? r) && (r <? 57344).

(** [utf16.DecodeRune]; [r2] is [None] when [getu4] gave -1. *)
Definition utf16_DecodeRune (r1 : Z) (r2 : option Z) : Z :=
  match r2 with
  | Some r2 =>
      if (55296 <=? r1) && (r1 <? 56320) && (56320 <=? r2) && (r2 <? 57344)
      then Z.lor (Z.shiftl (r1 - 55296) 10) (r2 - 56320) + 65536
      else utf8.RuneError
  | None => utf8.RuneError
  end.

(** One turn of the loop of [unquoteBytes] at a non-empty [s]: the bytes
    written and the number of bytes of [s] consumed; [None] when the
    literal is refused. *)
Definition unquoteStep (s : string) : option (string * nat) :=
  match s with
  | EmptyString => None
  | String c rest =>
      if Ascii.eqb c backslash then
        match rest with
        | EmptyString => None
        | String e _ =>
            if Ascii.eqb e quote || Ascii.eqb e backslash
               || Ascii.eqb e "/"%char || Ascii.eqb e "'"%char
            then Some (String e EmptyString, 2%nat)
            else if Ascii.eqb e "b"%char then Some (String "008"%char EmptyString, 2%nat)
            else if Ascii.eqb e "f"%char then Some (String "012"%char EmptyString, 2%nat)
            else if Ascii.eqb e "n"%char then Some (String "010"%char EmptyString, 2%nat)
            else if Ascii.eqb e "r"%char then Some (String "013"%char EmptyString, 2%nat)
            else if Ascii.eqb e "t"%char then Some (String "009"%char EmptyString, 2%nat)
            else if Ascii.eqb e "u"%char then
              match getu4 s with
              | None => None
              | Some rr =>
                  if IsSurrogate rr then
                    let dec := utf16_DecodeRune rr (getu4 (strings.drop 6 s)) in
                    if negb (dec =? utf8.RuneError)
                    then Some (utf8.EncodeRune dec, 12%nat)
                    else Some (utf8.EncodeRune utf8.RuneError, 6%nat)
                  else Some (utf8.EncodeRune rr, 6%nat)
              end
            else None
        end
      else if Ascii.eqb c quote || (byte_val c <? 32) then None
      else if byte_val c <? 128 then Some (String c EmptyString, 1%nat)
      else
        let '(rr, size) := utf8.DecodeRune s in
        Some (utf8.EncodeRune rr, size)
  end.

(** The loop [for r < len(s)] of [unquoteBytes]; [skip] counts the bytes
    the previous turn consumed beyond the first. *)
Fixpoint unquoteLoop (skip : nat) (s : string) : option string :=
  match s with
  | EmptyString => Some EmptyString
  | String _ rest =>
      match skip with
      | S k => unquoteLoop k rest
      | O =>
          match unquoteStep s with
          | None => None
          | Some (out, size) =>
              match unquoteLoop (size - 1) rest with
              | Some t => Some (out +:+ t)
              | None => None
              end
          end
      end
  end.

(** [unquoteBytes] applied to the inside of a string literal. *)
Definition unquote (lit : string) : option string := unquoteLoop 0 lit.

(** *** The scanner ([scanner.go]) *)

Inductive Value : Type :=
| Null
| Bool (b : bool)
| Number
| Str (s : string)
| Array (items : list Value)
| Object (members : list (string * Value)).

(** The entries of [scanner.parseState], each with the part of the
    enclosing composite value decoded so far. *)
Inductive frame : Type :=
| parseObjectKey (members : list (string * Value))
| parseObjectValue (members : list (string * Value)) (key : string)
| parseArrayValue (items : list Value).

(** The step functions of the scanner. [stateEndValue] carries the value
    just completed; [stateEndTop] is [stateEndValue] on an empty
    [parseState].  The states [stateT], [stateTr], ..., [stateNul] are
    [stateLit] with the letters still expected. *)
Inductive state : Type :=
| stateBeginValue
| stateBeginValueOrEmpty
| stateBeginString
| stateBeginStringOrEmpty
| stateEndValue (v : Value)
| stateInString (lit : string)
| stateInStringEsc (lit : string)
| stateInStringEscU (n : nat) (lit : string)
| stateNeg
| state1
| state0
| stateDot
| stateDot0
| stateE
| stateESign
| stateE0
| stateLit (rest : string) (v : Value).

Definition maxNestingDepth : Z := 10000.

Definition snoc (s : string) (c : ascii) : string := s +:+ String c EmptyString.

(** [pushParseState] *)
Definition pushParseState (stack : list frame) (f : frame) (success : state)
  : option (state * list frame) :=
  if Z.of_nat (length (f :: stack)) <=? maxNestingDepth
  then Some (success, f :: stack) else None.

Definition do_stateEndValue (v : Value) (stack : list frame) (c : ascii)
  : option (state * list frame) :=
  match stack with
  | [] => if isSpace c then Some (stateEndValue v, []) else None
  | top :: below =>
      if isSpace c then Some (stateEndValue v, stack)
      else
        match top with
        | parseObjectKey ms =>
            match v with
            | Str k =>
                if Ascii.eqb c ":"%char
                then Some (stateBeginValue, parseObjectValue ms k :: below)
                else None
            | _ => None
            end
        | parseObjectValue ms k =>
            if Ascii.eqb c ","%char
            then Some (stateBeginString, parseObjectKey (ms ++ [(k, v)]) :: below)
            else if Ascii.eqb c "}"%char
            then Some (stateEndValue (Object (ms ++ [(k, v)])), below)
            else None
        | parseArrayValue items =>
            if Ascii.eqb c ","%char
            then Some (stateBeginValue, parseArrayValue (items ++ [v]) :: below)
            else if Ascii.eqb c "]"%char
            then Some (stateEndValue (Array (items ++ [v])), below)
            else None
        end
  end.

Definition do_stateBeginValue (stack : list frame) (c : ascii)
  : option (state * list frame) :=
  if isSpace c then Some (stateBeginValue, stack)
  else if Ascii.eqb c "{"%char
  then pushParseState stack (parseObjectKey []) stateBeginStringOrEmpty
  else if Ascii.eqb c "["%char
  then pushParseState stack (parseArrayValue []) stateBeginValueOrEmpty
  else if Ascii.eqb c quote then Some (stateInString EmptyString, stack)
  else if Ascii.eqb c "-"%char then Some (stateNeg, stack)
  else if Ascii.eqb c "0"%char then Some (state0, stack)
  else if Ascii.eqb c "t"%char then Some (stateLit "rue" (Bool true), stack)
  else if Ascii.eqb c "f"%char then Some (stateLit "alse" (Bool false), stack)
  else if Ascii.eqb c "n"%char then Some (stateLit "ull" Null, stack)
  else if utf8.in_range 49 57 (byte_val c) then Some (state1, stack)
  else None.

Definition do_stateBeginString (stack : list frame) (c : ascii)
  : option (state * list frame) :=
  if isSpace c then Some (stateBeginString, stack)
  else if Ascii.eqb c quote then Some (stateInString EmptyString, stack)
  else None.

Definition do_state0 (stack : list frame) (c : ascii)
  : option (state * list frame) :=
  if Ascii.eqb c "."%char then Some (stateDot, stack)
  else if Ascii.eqb c "e"%char || Ascii.eqb c "E"%char then Some (stateE, stack)
  else do_stateEndValue Number stack c.

Definition do_stateESign (stack : list frame) (c : ascii)
  : option (state * list frame) :=
  if isDigit c then Some (stateE0, stack) else None.

(** [scanner.step] *)
Definition step (st : state) (stack : list frame) (c : ascii)
  : option (state * list frame) :=
  match st with
  | stateBeginValue => do_stateBeginValue stack c
  | stateBeginValueOrEmpty =>
      if isSpace c then Some (stateBeginValueOrEmpty, stack)
      else if Ascii.eqb c "]"%char then
        match stack with
        | parseArrayValue items :: below => Some (stateEndValue (Array items), below)
        | _ => None
        end
      else do_stateBeginValue stack c
  | stateBeginString => do_stateBeginString stack c
  | stateBeginStringOrEmpty =>
      if isSpace c then Some (stateBeginStringOrEmpty, stack)
      else if Ascii.eqb c "}"%char then
        match stack with
        | parseObjectKey ms :: below => Some (stateEndValue (Object ms), below)
        | _ => None
        end
      else do_stateBeginString stack c
  | stateEndValue v => do_stateEndValue v stack c
  | stateInString lit =>
      if Ascii.eqb c quote then
        match unquote lit with
        | Some s => Some (stateEndValue (Str s), stack)
        | None => None
        end
      else if Ascii.eqb c backslash then Some (stateInStringEsc (snoc lit c), stack)
      else if byte_val c <? 32 then None
      else Some (stateInString (snoc lit c), stack)
  | stateInStringEsc lit =>
      if Ascii.eqb c "b"%char || Ascii.eqb c "f"%char || Ascii.eqb c "n"%char
         || Ascii.eqb c "r"%char || Ascii.eqb c "t"%char
         || Ascii.eqb c backslash || Ascii.eqb c "/"%char || Ascii.eqb c quote
      then Some (stateInString (snoc lit c), stack)
      else if Ascii.eqb c "u"%char then Some (stateInStringEscU 0 (snoc lit c), stack)
      else None
  | stateInStringEscU n lit =>
      match hexval c with
      | Some _ =>
          if (3 <=? n)%nat then Some (stateInString (snoc lit c), stack)
          else Some (stateInStringEscU (S n) (snoc lit c), stack)
      | None => None
      end
  | stateNeg =>
      if Ascii.eqb c "0"%char then Some (state0, stack)
      else if utf8.in_range 49 57 (byte_val c) then Some (state1, stack)
      else None
  | state1 =>
      if isDigit c then Some (state1, stack) else do_state0 stack c
  | state0 => do_state0 stack c
  | stateDot =>
      if isDigit c then Some (stateDot0, stack) else None
  | stateDot0 =>
      if isDigit c then Some (stateDot0, stack)
      else if Ascii.eqb c "e"%char || Ascii.eqb c "E"%char then Some (stateE, stack)
      else do_stateEndValue Number stack c
  | stateE =>
      if Ascii.eqb c "+"%char || Ascii.eqb c "-"%char then Some (stateESign, stack)
      else do_stateESign stack c
  | stateESign => do_stateESign stack c
  | stateE0 =>
      if isDigit c then Some (stateE0, stack)
      else do_stateEndValue Number stack c
  | stateLit rest v =>
      match rest with
      | String r rest' =>
          if Ascii.eqb c r then
            match rest' with
            | EmptyString => Some (stateEndValue v, stack)
            | _ => Some (stateLit rest' v, stack)
            end
          else None
      | EmptyString => None
      end
  end.

(** [scanner.eof]: the input must end after one complete top-level
    value. *)
Definition eof (st : state) (stack : list frame) : option Value :=
  match stack with
  | [] =>
      match st with
      | stateEndValue v => Some v
      | state1 | state0 | stateDot0 | stateE0 => Some Number
      | _ => None
      end
  | _ :: _ => None
  end.

(** [checkValid], returning the value read. *)
Fixpoint scan (st : state) (stack : list frame) (data : string) : option Value :=
  match data with
  | EmptyString => eof st stack
  | String c data' =>
      match step st stack c with
      | Some (st', stack') => scan st' stack' data'
      | None => None
      end
  end.

Definition parse (data : string) : option Value := scan stateBeginValue [] data.

(** *** Decoding into the struct ([decode.go]) *)

Inductive Field : Type := FCommand | FID | FBase64Img.

(** [foldName]: ASCII letters are upper-cased, and a rune is replaced by
    the smallest rune of its case-folding orbit.  The only runes outside
    ASCII that fold into ASCII are U+017F (onto [S]) and U+212A (onto
    [K]); the others stay outside ASCII and are left as they are. *)
Fixpoint foldName (skip : nat) (s : string) : string :=
  match s with
  | EmptyString => EmptyString
  | String c rest =>
      match skip with
      | S k => foldName k rest
      | O =>
          let v := byte_val c in
          if utf8.in_range 97 122 v then String (to_byte (v - 32)) (foldName 0 rest)
          else if strings.HasPrefix s (String "197"%char (String "191"%char EmptyString))
          then String "S"%char (foldName 1 rest)
          else if strings.HasPrefix s
                    (String "226"%char (String "132"%char (String "170"%char EmptyString)))
          then String "K"%char (foldName 2 rest)
          else String c (foldName 0 rest)
      end
  end.

(** The field a key is stored in: the field whose name is the key, else
    the field whose folded name is the folded key. *)
Definition lookupField (key : string) : option Field :=
  let k := foldName 0 key in
  if String.eqb k "COMMAND" then Some FCommand
  else if String.eqb k "ID" then Some FID
  else if String.eqb k "BASE64IMG" then Some FBase64Img
  else None.

Definition setField (f : Field) (s : string) (d : ImageData) : ImageData :=
  match f with
  | FCommand => mkImageData s (ID d) (Base64Img d)
  | FID => mkImageData (Command d) s (Base64Img d)
  | FBase64Img => mkImageData (Command d) (ID d) s
  end.

Definition getField (f : Field) (d : ImageData) : string :=
  match f with
  | FCommand => Command d
  | FID => ID d
  | FBase64Img => Base64Img d
  end.

(** One member of the object: [literalStore], [d.array] or [d.object] on
    a string field.  A string is stored, [null] leaves the field as it is,
    any other value is an [UnmarshalTypeError]; the value of a key that
    names no field is skipped.  The boolean records [d.savedError]. *)
Definition storeMember (acc : ImageData * bool) (m : string * Value)
  : ImageData * bool :=
  let '(d, err) := acc in
  match lookupField (fst m) with
  | None => (d, err)
  | Some f =>
      match snd m with
      | Str s => (setField f s d, err)
      | Null => (d, err)
      | _ => (d, true)
      end
  end.

Definition zero : ImageData := mkImageData EmptyString EmptyString EmptyString.

(** [d.value] on the struct: an object is decoded member by member, [null]
    is a no-op, any other top-level value is an [UnmarshalTypeError]. *)
Definition decode (v : Value) : option ImageData :=
  match v with
  | Object ms =>
      let '(d, err) := fold_left storeMember ms (zero, false) in
      if err then None else Some d
  | Null => Some zero
  | _ => None
  end.

(** [json.Unmarshal(message, &imgData)] on the zero value of [ImageData];
    [None] when it returns an error. *)
Definition Unmarshal (data : string) : option ImageData :=
  match parse data with
  | Some v => decode v
  | None => None
  end.

End json.

(** ** Package [os]: the file system

    A tree of directories and regular files addressed by their list of
    path components from the root.  Path names are resolved as on POSIX
    systems: empty components and [.] are skipped, [..] steps to the
    parent, every component before the last must be a directory.
    Symbolic links are not modelled.  Failures that depend on the state of
    the machine rather than on the tree (permissions, a full disk, no free
    descriptor) are decided by the environment, see [Faults]. *)

Module os.

Inductive Errno : Type := ENOENT | ENOTDIR | EISDIR | EINVAL | EOTHER.

Definition Path : Type := list string.

Record FS : Type := mkFS {
  cwd : Path;
  dirs : gset (list string);
  files : gmap (list string) string
}.

Inductive Node : Type := Dir | File (content : string) | Absent.

Definition node (fs : FS) (k : Path) : Node :=
  if decide (k ∈ dirs fs) then Dir
  else match files fs !! k with
       | Some c => File c
       | None => Absent
       end.

(** The components of a path name, split at [/]. *)
Fixpoint split (cur s : string) : list string :=
  match s with
  | EmptyString => [cur]
  | String c s' =>
      if Ascii.eqb c "/"%char then cur :: split EmptyString s'
      else split (cur +:+ String c EmptyString) s'
  end.

Definition parent (k : Path) : Path := removelast k.

(** Path resolution from the directory [cur]. *)
Fixpoint walk (fs : FS) (cur : Path) (comps : list string) : Errno + Path :=
  match comps with
  | [] => inr cur
  | c :: rest =>
      if String.eqb c EmptyString || String.eqb c "." then walk fs cur rest
      else if String.eqb c ".." then walk fs (parent cur) rest
      else
        let next := (cur ++ [c])%list in
        match rest with
        | [] => inr next
        | _ :: _ =>
            match node fs next with
            | Dir => walk fs next rest
            | File _ => inl ENOTDIR
            | Absent => inl ENOENT
            end
        end
  end.

(** The location a path name denotes; a name holding a NUL byte is
    refused by the system-call layer. *)
Definition resolve (fs : FS) (name : string) : Errno + Path :=
  if strings.contains name Ascii.zero then inl EINVAL
  else if strings.HasPrefix name "/" then walk fs [] (split EmptyString name)
  else walk fs (cwd fs) (split EmptyString name).

(** [os.Stat(name)]: the node found, which is never [Absent]. *)
Definition Stat (fs : FS) (name : string) : Errno + Node :=
  match resolve fs name with
  | inl e => inl e
  | inr k =>
      match node fs k with
      | Absent => inl ENOENT
      | n => inr n
      end
  end.

(** [os.IsNotExist(err)] *)
Definition IsNotExist (e : Errno) : bool :=
  match e with ENOENT => true | _ => false end.

(** [os.Open(name)]: the location of the node opened for reading. *)
Definition Open (fs : FS) (name : string) : Errno + Path :=
  match resolve fs name with
  | inl e => inl e
  | inr k =>
      match node fs k with
      | Absent => inl ENOENT
      | _ => inr k
      end
  end.

(** [os.Create(name)]: the file is created, or truncated when it exists. *)
Definition Create (fs : FS) (name : string) : Errno + (FS * Path) :=
  match resolve fs name with
  | inl e => inl e
  | inr k =>
      match node fs k with
      | Dir => inl EISDIR
      | _ => inr (mkFS (cwd fs) (dirs fs) (<[k := EmptyString]> (files fs)), k)
      end
  end.

(** [file.Write(b)] on a file just created: the bytes become its
    content. *)
Definition Write (fs : FS) (k : Path) (b : string) : FS :=
  mkFS (cwd fs) (dirs fs) (<[k := b]> (files fs)).

Fixpoint take (n : nat) (s : string) : string :=
  match n, s with
  | S n', String c s' => String c (take n' s')
  | _, _ => EmptyString
  end.

(** [file.Stat()] followed by [Size()]: the length of a regular file.  The
    size of a directory is what the file system reports for it ([dirSize]:
    a multiple of the block size on some file systems, 0 for an empty
    directory on others); a failing [file.Stat] is outside this model. *)
Definition Size (dirSize : nat) (fs : FS) (k : Path) : nat :=
  match node fs k with
  | File c => String.length c
  | Dir => dirSize
  | Absent => O
  end.

(** A buffer of [n] zero bytes after [s] was read into it. *)
Fixpoint fill (n : nat) (s : string) : string :=
  match n with
  | O => EmptyString
  | S n' =>
      match s with
      | String c s' => String c (fill n' s')
      | EmptyString => String Ascii.zero (fill n' EmptyString)
      end
  end.

(** One [file.Read(b)] with [len(b) = n], and the buffer after it.  A read
    into an empty buffer returns [0, nil] without asking the system, for a
    directory too; otherwise the system is asked once: it refuses a
    directory, and delivers the bytes of a regular file, [io.EOF] when
    there is none (a file so large that one call does not deliver [n]
    bytes is outside this model). *)
Definition Read (fs : FS) (k : Path) (n : nat) : Errno + string :=
  match n with
  | O => inr EmptyString
  | S _ =>
      match node fs k with
      | File EmptyString => inl EOTHER
      | File c => inr (fill n c)
      | Dir => inl EISDIR
      | Absent => inl ENOENT
      end
  end.

End os.

(** ** The handler *)

(** What the environment decides while one message is handled: whether a
    call that the file tree allows fails all the same, whether the
    response can be sent, and the size the file system reports for a
    directory.  [write_fault = Some n]: [file.Write] fails after [n]
    bytes. *)
Record Faults : Type := mkFaults {
  create_fault : bool;
  write_fault : option nat;
  stat_fault : bool;
  open_fault : bool;
  read_fault : bool;
  send_fault : bool;
  dir_size : nat
}.

(** Nothing fails, and a directory has the size of one block. *)
Definition no_faults : Faults :=
  mkFaults false None false false false false 4096.

(** What [fmt.Println] prints, one constructor for each call; the text of
    an error value is left out.  The file name or the command is printed
    as it was received: one call prints more than one physical line when
    that text holds a line feed. *)
Inductive LogLine : Type :=
| LogUpgradeFailed                      (* line 28 *)
| LogReadMessageFailed                  (* line 36 *)
| LogJSONFailed                         (* line 43 *)
| LogNoBase64Format                     (* line 52 *)
| LogBase64Failed                       (* line 59 *)
| LogCreateFailed                       (* line 66 *)
| LogWriteFailed                        (* line 73 *)
| LogSaved (fileName : string)          (* line 77 *)
| LogNotFound (fileName : string)       (* line 84 *)
| LogOpenFailed                         (* line 90 *)
| LogReadFailed                         (* line 100 *)
| LogSendFailed                         (* line 109 *)
| LogSent (fileName : string)           (* line 113 *)
| LogUnknownCommand (command : string). (* line 117 *)

(** The state the handler acts on: the file tree, the text messages
    written to the connection and what the calls of [fmt.Println] have
    printed so far, one entry for each call.  One
    connection is followed; between its messages nothing else changes the
    tree. *)
Record World : Type := mkWorld {
  fs : os.FS;
  sent : list string;
  stdout : list LogLine
}.

Definition println (l : LogLine) (w : World) : World :=
  mkWorld (fs w) (sent w) (stdout w ++ [l]).

Definition set_fs (f : os.FS) (w : World) : World :=
  mkWorld f (sent w) (stdout w).

Definition WriteMessage (m : string) (w : World) : World :=
  mkWorld (fs w) (sent w ++ [m]) (stdout w).

(** How an iteration of the loop ends: with the next iteration
    ([continue], or the end of the [switch], which is the end of the
    body), or with the loop left ([break] of the [for]). *)
Inductive Flow : Type := Continue | Break.

(** [case "upload"], main.go lines 49-78. *)
Definition upload (env : Faults) (imgData : ImageData) (w : World) : World * Flow :=
  if strings.HasPrefix (Base64Img imgData) "data:image/" then
    let imageDataIndex := strings.IndexByte (Base64Img imgData) ","%char + 1 in
    if imageDataIndex <=? 0 then (println LogNoBase64Format w, Continue)
    else
      let imageData := strings.slice_from (Base64Img imgData) imageDataIndex in
      match base64.DecodeString imageData with
      | None => (println LogBase64Failed w, Continue)
      | Some imgBytes =>
          let fileName := ID imgData +:+ ".jpg" in
          match os.Create (fs w) ("images/" +:+ fileName) with
          | inl _ => (println LogCreateFailed w, Continue)
          | inr (fs', file) =>
              if create_fault env then (println LogCreateFailed w, Continue)
              else
                match write_fault env with
                | Some n =>
                    (println LogWriteFailed
                       (set_fs (os.Write fs' file (os.take n imgBytes)) w), Continue)
                | None =>
                    (println (LogSaved fileName)
                       (set_fs (os.Write fs' file imgBytes) w), Continue)
                end
          end
      end
  else (w, Continue).

(** [case "request"], main.go lines 81-114.  The [break] of line 110
    stands inside the [switch] of line 47 and leaves that statement only:
    after a failed send the body of the loop is over and the next message
    is read, as after [continue].  The environment can make [file.Read]
    fail only when the system is asked, that is when the buffer is not
    empty. *)
Definition request (env : Faults) (imgData : ImageData) (w : World) : World * Flow :=
  if negb (String.eqb (ID imgData) EmptyString) then
    let fileName := ("images/" +:+ ID imgData) +:+ ".jpg" in
    let notExist :=
      match os.Stat (fs w) fileName with
      | inl e => os.IsNotExist e
      | inr _ => false
      end in
    if notExist && negb (stat_fault env)
    then (println (LogNotFound fileName) w, Continue)
    else
      match os.Open (fs w) fileName with
      | inl _ => (println LogOpenFailed w, Continue)
      | inr file =>
          if open_fault env then (println LogOpenFailed w, Continue)
          else
            let size := os.Size (dir_size env) (fs w) file in
            match os.Read (fs w) file size with
            | inl _ => (println LogReadFailed w, Continue)
            | inr imgBytes =>
                if read_fault env && negb (Nat.eqb size O)
                then (println LogReadFailed w, Continue)
                else
                  let encodedImage := base64.EncodeToString imgBytes in
                  let responseData := "data:image/jpg;base64," +:+ encodedImage in
                  if send_fault env then (println LogSendFailed w, Continue)
                  else (println (LogSent fileName) (WriteMessage responseData w), Continue)
            end
      end
  else (w, Continue).

(** The body of the loop for a message that was read, main.go
    lines 40-118. *)
Definition handleMessage (env : Faults) (message : string) (w : World) : World * Flow :=
  match json.Unmarshal message with
  | None => (println LogJSONFailed w, Continue)
  | Some imgData =>
      if String.eqb (Command imgData) "upload" then upload env imgData w
      else if String.eqb (Command imgData) "request" then request env imgData w
      else (println (LogUnknownCommand (Command imgData)) w, Continue)
  end.

(** What [conn.ReadMessage] returns: a message, together with what the
    environment decides while it is handled, or an error. *)
Inductive Incoming : Type :=
| Message (message : string) (env : Faults)
| ReadError.

(** The connection after the events so far: the handler waits in
    [ReadMessage], or it has returned and the connection is closed. *)
Inductive Conn : Type := Reading | Closed.

(** The loop of [handleWebSocket], main.go lines 33-119, on the results of
    the successive calls of [ReadMessage]. *)
Fixpoint readLoop (inbound : list Incoming) (w : World) : World * Conn :=
  match inbound with
  | [] => (w, Reading)
  | ReadError :: _ => (println LogReadMessageFailed w, Closed)
  | Message message env :: rest =>
      match handleMessage env message w with
      | (w', Continue) => readLoop rest w'
      | (w', Break) => (w', Closed)
      end
  end.

(** [handleWebSocket], main.go lines 25-120: when [upgrader.Upgrade] fails
    the handler returns at once; otherwise it runs the loop, and the
    deferred [conn.Close] closes the connection when the loop is left. *)
Definition handleWebSocket (upgraded : bool) (inbound : list Incoming) (w : World)
  : World * Conn :=
  if upgraded then readLoop inbound w
  else (println LogUpgradeFailed w, Closed).

(** ** Vocabulary of the properties *)

(** The path name both commands build from an id. *)
Definition imagePath (id : string) : string := "images/" +:+ id +:+ ".jpg".

(** The bytes an [upload] decodes from its payload: what follows the first
    comma, read as base64 (main.go lines 50-57). *)
Definition payloadBytes (payload : string) : option string :=
  base64.DecodeString
    (strings.slice_from payload (strings.IndexByte payload ","%char + 1)).

(** What can be observed of a run apart from the lines printed. *)
Definition observable (r : World * Conn) : os.FS * list string * Conn :=
  (fs (fst r), sent (fst r), snd r).

(** JSON texts are written below with an apostrophe for each double
    quote. *)
Fixpoint jq (s : string) : string :=
  match s with
  | EmptyString => EmptyString
  | String c s' =>
      String (if Ascii.eqb c "'"%char then json.quote else c) (jq s')
  end.

(** The text of an [upload] and of a [request] message for an id and a
    payload that need no escaping. *)
Definition uploadMessage (id payload : string) : string :=
  jq "{'command':'upload','id':'" +:+ id +:+ jq "','base64Img':'"
  +:+ payload +:+ jq "'}".

Definition requestMessage (id : string) : string :=
  jq "{'command':'request','id':'" +:+ id +:+ jq "'}".

(** A process started in [/srv], whose storage directory [/srv/images]
    exists and is empty. *)
Definition fs0 : os.FS :=
  os.mkFS ["srv"] {[ []; ["srv"]; ["srv"; "images"] ]} ∅.

Definition w0 : World := mkWorld fs0 [] [].

(** The environment in which nothing fails but the send of the
    response. *)
Definition send_fails : Faults :=
  mkFaults false None false false false true 4096.

(** An upload, a request for the same id whose response cannot be sent,
    and an upload that comes after it. *)
Definition failed_send_run : list Incoming :=
  [Message (uploadMessage "abc" "data:image/png;base64,QUJD") no_faults;
   Message (requestMessage "abc") send_fails;
   Message (uploadMessage "late" "data:image/png;base64,QUJD") no_faults].

(** ** Further vocabulary *)

(** Whether a message is a request with a non-empty id, the only kind of
    message the handler may answer. *)
Definition asksForImage (message : string) : bool :=
  match json.Unmarshal message with
  | Some d => String.eqb (Command d) "request" && negb (String.eqb (ID d) EmptyString)
  | None => false
  end.

Fixpoint requestsIn (inbound : list Incoming) : nat :=
  match inbound with
  | [] => O
  | Message m _ :: rest => ((if asksForImage m then 1 else 0) + requestsIn rest)%nat
  | ReadError :: rest => requestsIn rest
  end.

(** A text without its carriage returns and line feeds. *)
Fixpoint stripNewlines (s : string) : string :=
  match s with
  | EmptyString => EmptyString
  | String c s' =>
      if base64.isNewline c then stripNewlines s' else String c (stripNewlines s')
  end.

(** The storage directory of a process. *)
Definition storageDir (t : os.FS) : os.Path := (os.cwd t ++ ["images"])%list.

(** The tree of [fs0] with a directory [album.jpg] inside the storage
    directory. *)
Definition fs_album : os.FS :=
  os.mkFS ["srv"]
    {[ []; ["srv"]; ["srv"; "images"]; ["srv"; "images"; "album.jpg"] ]} ∅.

(** A key with its ASCII letters in upper case. *)
Definition upperByte (c : ascii) : ascii :=
  if utf8.in_range 97 122 (byte_val c) then to_byte (byte_val c - 32) else c.

Fixpoint toUpper (s : string) : string :=
  match s with
  | EmptyString => EmptyString
  | String c s' => String (upperByte c) (toUpper s')
  end.

Definition upperKey (m : string * json.Value) : string * json.Value :=
  (toUpper (fst m), snd m).

(** In the proofs below, [simpl] and [cbn] unfold the concatenation of
    strings when its first argument starts with a constructor. *)
#[local] Arguments String.append !s1 s2 : simpl nomatch.

(** * Properties of the library models *)

(** ** Bytes *)

Lemma byte_val_range (c : ascii) : 0 <= byte_val c < 256.
Proof.
  unfold byte_val. pose proof (N_ascii_bounded c). lia.
Qed.

Lemma byte_val_low_bits (c : ascii) : Z.land (byte_val c) (Z.ones 8) = byte_val c.
Proof.
  rewrite Z.land_ones by lia. apply Z.mod_small. apply byte_val_range.
Qed.

Lemma to_byte_eq (v : Z) (c : ascii) :
  Z.land v (Z.ones 8) = byte_val c -> to_byte v = c.
Proof.
  intros H. unfold to_byte. change 255 with (Z.ones 8). rewrite H.
  unfold byte_val. rewrite N2Z.id. apply ascii_N_embedding.
Qed.

(** ** base64: decoding inverts encoding *)

Lemma decodeMap_encode (v : Z) :
  0 <= v < 64 -> base64.decodeMap (base64.encode v) = Some v.
Proof.
  intros Hv.
  assert (H : exists n, (n < 64)%nat /\ v = Z.of_nat n).
  { exists (Z.to_nat v). split; lia. }
  destruct H as (n & Hn & ->).
  do 64 (destruct n as [|n]; [reflexivity|]). lia.
Qed.

Lemma sextet_range (v : Z) : 0 <= Z.land v 63 < 64.
Proof.
  change 63 with (Z.ones 6). rewrite Z.land_ones by lia.
  apply Z.mod_pos_bound. lia.
Qed.

Lemma lor_add (a b n : Z) :
  0 <= n -> 0 <= b < 2 ^ n -> a mod 2 ^ n = 0 -> Z.lor a b = a + b.
Proof.
  intros Hn Hb Ha. apply Z.or_to_plus.
  apply Z.bits_inj'. intros i Hi. rewrite Z.land_spec, Z.testbit_0_l.
  destruct (Z.lt_ge_cases i n) as [Hlt | Hge].
  - rewrite <- (Z.mod_pow2_bits_low a n i) by lia. rewrite Ha.
    now rewrite Z.testbit_0_l.
  - rewrite <- (Z.mod_small b (2 ^ n)) by lia.
    rewrite Z.mod_pow2_bits_high by lia. apply andb_false_r.
Qed.

Ltac to_arith :=
  change 63 with (Z.ones 6); change 255 with (Z.ones 8);
  rewrite ?Z.land_ones, ?Z.shiftr_div_pow2, ?Z.shiftl_mul_pow2 by lia;
  change (2 ^ 6) with 64; change (2 ^ 8) with 256; change (2 ^ 12) with 4096;
  change (2 ^ 16) with 65536; change (2 ^ 18) with 262144.

Lemma pack3_arith (x y z : Z) :
  0 <= x < 256 -> 0 <= y < 256 -> 0 <= z < 256 ->
  Z.lor (Z.lor (Z.shiftl x 16) (Z.shiftl y 8)) z = x * 65536 + y * 256 + z.
Proof.
  intros Hx Hy Hz. to_arith.
  rewrite (lor_add (x * 65536) (y * 256) 16); try lia.
  - rewrite (lor_add _ z 8); try lia.
    change (2 ^ 8) with 256. Z.div_mod_to_equations. lia.
  - change (2 ^ 16) with 65536. Z.div_mod_to_equations. lia.
Qed.

Lemma pack4_arith (d0 d1 d2 d3 : Z) :
  0 <= d0 < 64 -> 0 <= d1 < 64 -> 0 <= d2 < 64 -> 0 <= d3 < 64 ->
  Z.lor (Z.lor (Z.lor (Z.shiftl d0 18) (Z.shiftl d1 12)) (Z.shiftl d2 6)) d3
  = d0 * 262144 + d1 * 4096 + d2 * 64 + d3.
Proof.
  intros H0 H1 H2 H3. to_arith.
  rewrite (lor_add (d0 * 262144) (d1 * 4096) 18); try lia.
  - rewrite (lor_add _ (d2 * 64) 12); try lia.
    + rewrite (lor_add _ d3 6); try lia.
      change (2 ^ 6) with 64. Z.div_mod_to_equations. lia.
    + change (2 ^ 12) with 4096. Z.div_mod_to_equations. lia.
  - change (2 ^ 18) with 262144. Z.div_mod_to_equations. lia.
Qed.

Lemma quantum_arith (n : nat) (d0 d1 d2 d3 : Z) :
  0 <= d0 < 64 -> 0 <= d1 < 64 -> 0 <= d2 < 64 -> 0 <= d3 < 64 ->
  base64.quantum n d0 d1 d2 d3 =
  let val := d0 * 262144 + d1 * 4096 + d2 * 64 + d3 in
  let b0 := to_byte (val / 65536) in
  let b1 := to_byte (val / 256) in
  let b2 := to_byte val in
  match n with
  | 4%nat => String b0 (String b1 (String b2 EmptyString))
  | 3%nat => String b0 (String b1 EmptyString)
  | 2%nat => String b0 EmptyString
  | _ => EmptyString
  end.
Proof.
  intros. unfold base64.quantum. rewrite pack4_arith by assumption.
  rewrite !Z.shiftr_div_pow2 by lia. reflexivity.
Qed.

Lemma to_byte_arith (v : Z) (c : ascii) : v mod 256 = byte_val c -> to_byte v = c.
Proof.
  intros H. apply to_byte_eq. rewrite Z.land_ones by lia. exact H.
Qed.

Lemma decode_group (a b c : ascii) (t : string) :
  base64.decodeLoop [] (base64.EncodeToString (String a (String b (String c t))))
  = match base64.decodeLoop [] (base64.EncodeToString t) with
    | Some u => Some (String a (String b (String c u)))
    | None => None
    end.
Proof.
  cbn [base64.EncodeToString].
  rewrite (pack3_arith _ _ _ (byte_val_range a) (byte_val_range b) (byte_val_range c)).
  pose proof (byte_val_range a) as Ha. pose proof (byte_val_range b) as Hb.
  pose proof (byte_val_range c) as Hc.
  set (val := byte_val a * 65536 + byte_val b * 256 + byte_val c).
  cbn [base64.decodeLoop].
  rewrite !decodeMap_encode by apply sextet_range.
  cbn [app].
  rewrite quantum_arith by apply sextet_range.
  cbv zeta. to_arith.
  assert (E : (val / 262144) mod 64 * 262144 + (val / 4096) mod 64 * 4096
              + (val / 64) mod 64 * 64 + val mod 64 = val).
  { subst val. Z.div_mod_to_equations. lia. }
  rewrite E.
  rewrite (to_byte_arith (val / 65536) a), (to_byte_arith (val / 256) b),
          (to_byte_arith val c);
    [ | subst val; Z.div_mod_to_equations; lia ..].
  destruct (base64.decodeLoop [] (base64.EncodeToString t)); reflexivity.
Qed.

Lemma decode_tail1 (a : ascii) :
  base64.decodeLoop [] (base64.EncodeToString (String a EmptyString))
  = Some (String a EmptyString).
Proof.
  cbn [base64.EncodeToString].
  pose proof (byte_val_range a) as Ha.
  cbn [base64.decodeLoop].
  rewrite !decodeMap_encode by apply sextet_range.
  cbn [app]. change (base64.decodeMap base64.padChar) with (@None Z).
  cbn -[base64.quantum Z.shiftl Z.shiftr Z.land].
  rewrite quantum_arith by (try apply sextet_range; lia).
  cbv zeta. to_arith. f_equal. f_equal.
  apply to_byte_arith. Z.div_mod_to_equations. lia.
Qed.

Lemma decode_tail2 (a b : ascii) :
  base64.decodeLoop [] (base64.EncodeToString (String a (String b EmptyString)))
  = Some (String a (String b EmptyString)).
Proof.
  cbn [base64.EncodeToString].
  pose proof (byte_val_range a) as Ha. pose proof (byte_val_range b) as Hb.
  replace (Z.lor (Z.shiftl (byte_val a) 16) (Z.shiftl (byte_val b) 8))
    with (byte_val a * 65536 + byte_val b * 256).
  2:{ to_arith. rewrite (lor_add _ _ 16); try lia.
      change (2 ^ 16) with 65536. Z.div_mod_to_equations. lia. }
  cbn [base64.decodeLoop].
  rewrite !decodeMap_encode by apply sextet_range.
  cbn [app]. change (base64.decodeMap base64.padChar) with (@None Z).
  cbn -[base64.quantum Z.shiftl Z.shiftr Z.land Z.mul Z.add].
  rewrite quantum_arith by (try apply sextet_range; lia).
  cbv zeta. to_arith. f_equal. f_equal; [|f_equal].
  - apply to_byte_arith. Z.div_mod_to_equations. lia.
  - apply to_byte_arith. Z.div_mod_to_equations. lia.
Qed.

Lemma string_ind3 (P : string -> Prop) :
  P EmptyString ->
  (forall a, P (String a EmptyString)) ->
  (forall a b, P (String a (String b EmptyString))) ->
  (forall a b c t, P t -> P (String a (String b (String c t)))) ->
  forall s, P s.
Proof.
  intros H0 H1 H2 H3.
  assert (H : forall s, P s /\ (forall a, P (String a s))
                        /\ (forall a b, P (String a (String b s)))).
  { induction s as [|c s (IH0 & IH1 & IH2)].
    - repeat split; auto.
    - repeat split; auto. }
  intros s. apply H.
Qed.

Theorem DecodeString_EncodeToString (src : string) :
  base64.DecodeString (base64.EncodeToString src) = Some src.
Proof.
  unfold base64.DecodeString.
  induction src as [ | a | a b | a b c t IH] using string_ind3.
  - reflexivity.
  - apply decode_tail1.
  - apply decode_tail2.
  - rewrite decode_group, IH. reflexivity.
Qed.

(** ** strings *)

Lemma string_app_assoc (a b c : string) : (a +:+ b) +:+ c = a +:+ (b +:+ c).
Proof. induction a as [|x a IH]; cbn; [reflexivity | now rewrite IH]. Qed.

Lemma HasPrefix_app (p s : string) : strings.HasPrefix (p +:+ s) p = true.
Proof.
  induction p as [|c p IH]; cbn; [reflexivity |].
  now rewrite Ascii.eqb_refl, IH.
Qed.

Lemma contains_app (a b : string) (c : ascii) :
  strings.contains (a +:+ b) c = strings.contains a c || strings.contains b c.
Proof.
  induction a as [|x a IH]; cbn; [reflexivity |].
  now rewrite IH, orb_assoc.
Qed.

Lemma IndexByte_bound (s : string) (c : ascii) : -1 <= strings.IndexByte s c.
Proof.
  induction s as [|x s IH]; cbn; [lia |].
  destruct (Ascii.eqb x c); [lia |].
  destruct (Z.ltb_spec (strings.IndexByte s c) 0); lia.
Qed.

Lemma IndexByte_absent (s : string) (c : ascii) :
  strings.contains s c = false <-> strings.IndexByte s c = -1.
Proof.
  induction s as [|x s IH]; cbn; [tauto |].
  pose proof (IndexByte_bound s c).
  destruct (Ascii.eqb x c); cbn; [split; [discriminate | lia] |].
  rewrite IH. destruct (Z.ltb_spec (strings.IndexByte s c) 0); lia.
Qed.

(** The first separator of [a ++ c :: b] when [a] holds none, and the
    slice behind it. *)
Lemma slice_after_first (a b : string) (c : ascii) :
  strings.contains a c = false ->
  0 < strings.IndexByte (a +:+ String c b) c + 1 /\
  strings.slice_from (a +:+ String c b) (strings.IndexByte (a +:+ String c b) c + 1) = b.
Proof.
  unfold strings.slice_from. induction a as [|x a IH]; cbn.
  - intros _. rewrite Ascii.eqb_refl. split; [lia | reflexivity].
  - destruct (Ascii.eqb x c); cbn; [discriminate |]. intros H.
    destruct (IH H) as [Hpos Hdrop].
    destruct (Z.ltb_spec (strings.IndexByte (a +:+ String c b) c) 0); [lia |].
    split; [lia |].
    replace (Z.to_nat (strings.IndexByte (a +:+ String c b) c + 1 + 1))
      with (S (Z.to_nat (strings.IndexByte (a +:+ String c b) c + 1))) by lia.
    exact Hdrop.
Qed.

Lemma HasPrefix_app_l (s t p : string) :
  strings.HasPrefix s p = true -> strings.HasPrefix (s +:+ t) p = true.
Proof.
  revert s. induction p as [|c p IH]; intros s; cbn; [reflexivity |].
  destruct s as [|x s]; cbn; [discriminate |].
  intros H. apply andb_true_iff in H as [-> H]. now rewrite IH.
Qed.

(** ** os: the tree after a file has been created and written *)

Lemma node_Dir (fs : os.FS) (k : os.Path) : os.node fs k = os.Dir <-> k ∈ os.dirs fs.
Proof.
  unfold os.node. destruct (decide (k ∈ os.dirs fs)) as [Hin | Hnin].
  - tauto.
  - split; [| tauto]. destruct (os.files fs !! k); discriminate.
Qed.

Lemma walk_stable (fs1 fs2 : os.FS) (comps : list string) :
  os.dirs fs2 = os.dirs fs1 ->
  forall cur k, os.walk fs1 cur comps = inr k -> os.walk fs2 cur comps = inr k.
Proof.
  intros Hd. induction comps as [|c rest IH]; intros cur k; cbn; [trivial |].
  destruct (String.eqb c EmptyString || String.eqb c "."); [apply IH |].
  destruct (String.eqb c ".."); [apply IH |].
  destruct rest as [|c' rest']; [trivial |].
  destruct (os.node fs1 (cur ++ [c])%list) eqn:Hn; try discriminate.
  apply node_Dir in Hn. rewrite <- Hd in Hn. apply node_Dir in Hn.
  rewrite Hn. apply IH.
Qed.

Lemma resolve_stable (fs1 fs2 : os.FS) (name : string) (k : os.Path) :
  os.dirs fs2 = os.dirs fs1 -> os.cwd fs2 = os.cwd fs1 ->
  os.resolve fs1 name = inr k -> os.resolve fs2 name = inr k.
Proof.
  intros Hd Hc. unfold os.resolve. rewrite Hc.
  destruct (strings.contains name Ascii.zero); [discriminate |].
  destruct (strings.HasPrefix name "/"); apply walk_stable; exact Hd.
Qed.

Lemma Create_inv (fs fs' : os.FS) (name : string) (k : os.Path) :
  os.Create fs name = inr (fs', k) ->
  os.resolve fs name = inr k /\ (k ∉ os.dirs fs) /\
  fs' = os.mkFS (os.cwd fs) (os.dirs fs) (<[k := EmptyString]> (os.files fs)).
Proof.
  unfold os.Create. destruct (os.resolve fs name) as [e | k']; [discriminate |].
  destruct (os.node fs k') eqn:Hn; [discriminate | |];
    intros [= <- <-];
    (split; [reflexivity | split; [| reflexivity]]);
    intros Hin; apply node_Dir in Hin; congruence.
Qed.

Lemma Write_Create (fs fs' : os.FS) (name b : string) (k : os.Path) :
  os.Create fs name = inr (fs', k) ->
  os.Write fs' k b = os.mkFS (os.cwd fs) (os.dirs fs) (<[k := b]> (os.files fs)).
Proof.
  intros H. apply Create_inv in H as (_ & _ & ->).
  unfold os.Write; cbn. now rewrite insert_insert_eq.
Qed.

Lemma node_written (fs : os.FS) (k : os.Path) (b : string) :
  k ∉ os.dirs fs ->
  os.node (os.mkFS (os.cwd fs) (os.dirs fs) (<[k := b]> (os.files fs))) k = os.File b.
Proof.
  intros Hk. unfold os.node; cbn.
  destruct (decide (k ∈ os.dirs fs)); [tauto |]. now rewrite lookup_insert_eq.
Qed.

(** A buffer of the length of a text is filled by the text. *)
Lemma fill_length (c : string) : os.fill (String.length c) c = c.
Proof. induction c as [|a c IH]; cbn; [reflexivity | now rewrite IH]. Qed.

(** A regular file is read whole into a buffer of its size, whatever the
    size of a directory. *)
Lemma Read_file (fs : os.FS) (k : os.Path) (c : string) (n : nat) :
  os.node fs k = os.File c -> os.Read fs k (os.Size n fs k) = inr c.
Proof.
  intros Hn. unfold os.Size, os.Read. rewrite Hn.
  destruct c as [|a c]; [reflexivity |].
  cbn [String.length]. now rewrite <- (fill_length (String a c)) at 2.
Qed.

(** A directory is read as no bytes when its size is 0, and not at all
    otherwise. *)
Lemma Read_dir (fs : os.FS) (k : os.Path) (n : nat) :
  os.node fs k = os.Dir ->
  os.Read fs k (os.Size n fs k)
  = match n with O => inr EmptyString | S _ => inl os.EISDIR end.
Proof.
  intros Hn. unfold os.Size, os.Read. rewrite Hn. now destruct n.
Qed.

(** Once [name] has been created and [b] written, [name] resolves to the
    same place, a regular file holding [b], and can be created again. *)
Lemma written_file (fs fs' : os.FS) (name b : string) (k : os.Path) :
  os.Create fs name = inr (fs', k) ->
  let fs2 := os.Write fs' k b in
  os.Stat fs2 name = inr (os.File b) /\ os.Open fs2 name = inr k /\
  (forall n, os.Read fs2 k (os.Size n fs2 k) = inr b) /\
  os.Create fs2 name =
    inr (os.mkFS (os.cwd fs) (os.dirs fs) (<[k := EmptyString]> (os.files fs)), k).
Proof.
  intros H fs2. subst fs2. rewrite (Write_Create _ _ _ b _ H).
  apply Create_inv in H as (Hr & Hk & _).
  set (fs2 := os.mkFS _ _ _).
  assert (Hr2 : os.resolve fs2 name = inr k) by (now apply (resolve_stable fs)).
  assert (Hn : os.node fs2 k = os.File b) by (now apply node_written).
  unfold os.Stat, os.Open, os.Create. rewrite Hr2, Hn.
  split; [reflexivity | split; [reflexivity | split]].
  - intros n. now apply Read_file.
  - subst fs2; cbn. now rewrite insert_insert_eq.
Qed.

Lemma Stat_Open (fs : os.FS) (name : string) :
  match os.Stat fs name, os.Open fs name with
  | inl e, inl e' => e = e'
  | inr n, inr k => os.resolve fs name = inr k /\ os.node fs k = n /\ n <> os.Absent
  | _, _ => False
  end.
Proof.
  unfold os.Stat, os.Open. destruct (os.resolve fs name) as [e | k]; [reflexivity |].
  destruct (os.node fs k) eqn:Hn; repeat split; first [reflexivity | assumption | discriminate].
Qed.

(** * The handler *)

(** Case analysis on the tests of a branching term, innermost first. *)
Ltac case_branches :=
  repeat match goal with
  | |- context [match ?x with _ => _ end] =>
      lazymatch x with
      | context [match _ with _ => _ end] => fail
      | _ => destruct x
      end
  | |- context [if ?x then _ else _] => destruct x
  end.

(** A failed upgrade ends the handler before the loop; after a successful
    one the handler is the loop. *)
Lemma handleWebSocket_upgrade (inbound : list Incoming) (w : World) :
  handleWebSocket false inbound w = (println LogUpgradeFailed w, Closed) /\
  handleWebSocket true inbound w = readLoop inbound w.
Proof. split; reflexivity. Qed.

Lemma handleMessage_upload (env : Faults) (m I p : string) (w : World) :
  json.Unmarshal m = Some (mkImageData "upload" I p) ->
  handleMessage env m w = upload env (mkImageData "upload" I p) w.
Proof. intros H. unfold handleMessage. now rewrite H. Qed.

Lemma handleMessage_request (env : Faults) (m I p : string) (w : World) :
  json.Unmarshal m = Some (mkImageData "request" I p) ->
  handleMessage env m w = request env (mkImageData "request" I p) w.
Proof. intros H. unfold handleMessage. now rewrite H. Qed.

(** An iteration that ends in [continue] hands the world on to the next
    call of [ReadMessage]. *)
Lemma readLoop_continue (env : Faults) (m : string) (rest : list Incoming)
    (w : World) :
  snd (handleMessage env m w) = Continue ->
  readLoop (Message m env :: rest) w
  = readLoop rest (fst (handleMessage env m w)).
Proof.
  intros H. cbn [readLoop].
  destruct (handleMessage env m w) as [w' fl]. cbn in H. now subst fl.
Qed.

(** The upload of a payload whose first comma ends [pre]: the segment
    behind the comma is decoded and stored. *)
Lemma upload_segment (env : Faults) (c I p pre seg : string) (w : World) :
  p = pre +:+ String ","%char seg ->
  strings.HasPrefix pre "data:image/" = true ->
  strings.contains pre ","%char = false ->
  upload env (mkImageData c I p) w =
    match base64.DecodeString seg with
    | None => (println LogBase64Failed w, Continue)
    | Some imgBytes =>
        match os.Create (fs w) (imagePath I) with
        | inl _ => (println LogCreateFailed w, Continue)
        | inr (fs', file) =>
            if create_fault env then (println LogCreateFailed w, Continue)
            else
              match write_fault env with
              | Some n =>
                  (println LogWriteFailed
                     (set_fs (os.Write fs' file (os.take n imgBytes)) w), Continue)
              | None =>
                  (println (LogSaved (I +:+ ".jpg"))
                     (set_fs (os.Write fs' file imgBytes) w), Continue)
              end
        end
    end.
Proof.
  intros -> Hpre Hc. unfold upload. cbn [Base64Img ID].
  rewrite (HasPrefix_app_l _ _ _ Hpre).
  destruct (slice_after_first pre seg ","%char Hc) as [Hpos Hslice].
  cbv zeta. rewrite Hslice.
  destruct (Z.leb_spec (strings.IndexByte (pre +:+ String ","%char seg) ","%char + 1) 0);
    [lia | reflexivity].
Qed.

(** A request for a path that [os.Stat] does not find changes nothing but
    the log. *)
Lemma request_no_file (env : Faults) (d : ImageData) (w : World) (e : os.Errno) :
  os.Stat (fs w) (imagePath (ID d)) = inl e ->
  fs (fst (request env d w)) = fs w /\ sent (fst (request env d w)) = sent w
  /\ snd (request env d w) = Continue.
Proof.
  intros Hs. unfold request.
  destruct (negb (String.eqb (ID d) EmptyString)); [| auto].
  change (("images/" +:+ ID d) +:+ ".jpg") with (imagePath (ID d)). cbv zeta.
  pose proof (Stat_Open (fs w) (imagePath (ID d))) as Ho. rewrite Hs in *.
  destruct (os.Open (fs w) (imagePath (ID d))); [| contradiction].
  destruct (os.IsNotExist e && negb (stat_fault env)); auto.
Qed.

(** A request for a file that can be opened and read sends its content. *)
Lemma request_sends (env : Faults) (d : ImageData) (w : World) (k : os.Path)
    (bytes : string) :
  ID d <> EmptyString ->
  os.Open (fs w) (imagePath (ID d)) = inr k ->
  os.Read (fs w) k (os.Size (dir_size env) (fs w) k) = inr bytes ->
  open_fault env = false -> read_fault env = false ->
  request env d w =
    if send_fault env then (println LogSendFailed w, Continue)
    else (println (LogSent (imagePath (ID d)))
            (WriteMessage ("data:image/jpg;base64," +:+ base64.EncodeToString bytes) w),
          Continue).
Proof.
  intros HI Ho Hr Hof Hrf. unfold request.
  apply String.eqb_neq in HI. rewrite HI. cbn [negb].
  change (("images/" +:+ ID d) +:+ ".jpg") with (imagePath (ID d)). cbv zeta.
  pose proof (Stat_Open (fs w) (imagePath (ID d))) as Hs. rewrite Ho in Hs.
  destruct (os.Stat (fs w) (imagePath (ID d))); [contradiction |].
  cbn [andb]. rewrite Ho, Hof, Hr, Hrf. reflexivity.
Qed.

(** No iteration leaves the loop. *)
Lemma handleMessage_continue (env : Faults) (m : string) (w : World) :
  snd (handleMessage env m w) = Continue.
Proof.
  unfold handleMessage, upload, request. case_branches; reflexivity.
Qed.

(** The lines already printed have no influence on an iteration: it only
    appends to them. *)
Lemma handleMessage_log (env : Faults) (m : string) (f : os.FS) (s : list string) :
  exists f' s' delta fl, forall out,
    handleMessage env m (mkWorld f s out) = (mkWorld f' s' (out ++ delta)%list, fl).
Proof.
  unfold handleMessage, upload, request, println, set_fs, WriteMessage. cbn [fs sent stdout].
  case_branches;
  first [ do 4 eexists; intros out; reflexivity
        | exists f, s, [], Continue; intros out; now rewrite app_nil_r ].
Qed.

Lemma readLoop_log (inbound : list Incoming) :
  forall (f : os.FS) (s : list string),
  exists f' s' delta c, forall out,
    readLoop inbound (mkWorld f s out) = (mkWorld f' s' (out ++ delta)%list, c).
Proof.
  induction inbound as [|[m env|] rest IH]; intros f s.
  - exists f, s, [], Reading. intros out. cbn. now rewrite app_nil_r.
  - destruct (handleMessage_log env m f s) as (f1 & s1 & d1 & fl & H1).
    destruct fl.
    + destruct (IH f1 s1) as (f2 & s2 & d2 & c & H2).
      exists f2, s2, (d1 ++ d2)%list, c. intros out.
      cbn [readLoop]. rewrite H1, H2. now rewrite app_assoc.
    + exists f1, s1, d1, Closed. intros out. cbn [readLoop]. now rewrite H1.
  - exists f, s, [LogReadMessageFailed], Closed. intros out. reflexivity.
Qed.

(** * Properties of the protocol *)

(** C3. An upload that fails before storage (the payload lacks the prefix
    [data:image/], or holds no comma, or the segment behind its first comma
    is not valid base64) leaves the file tree as it was, sends nothing and
    ends in [continue], so the loop goes on to the following messages; if
    the id had no file before, a request for it that comes next sends
    nothing either. *)
Theorem failed_upload_stores_nothing (env : Faults) (m I p : string) (w : World) :
  json.Unmarshal m = Some (mkImageData "upload" I p) ->
  strings.HasPrefix p "data:image/" = false
  \/ strings.contains p ","%char = false
  \/ payloadBytes p = None ->
  let r := handleMessage env m w in
  fs (fst r) = fs w /\ sent (fst r) = sent w /\ snd r = Continue /\
  (forall rest,
     readLoop (Message m env :: rest) w = readLoop rest (fst r)) /\
  (forall env2 m2 p2 e,
     json.Unmarshal m2 = Some (mkImageData "request" I p2) ->
     os.Stat (fs w) (imagePath I) = inl e ->
     sent (fst (handleMessage env2 m2 (fst r))) = sent w /\
     snd (handleMessage env2 m2 (fst r)) = Continue).
Proof.
  intros Hm Hfail r.
  assert (H : fs (fst r) = fs w /\ sent (fst r) = sent w /\ snd r = Continue).
  { subst r. rewrite (handleMessage_upload _ _ _ _ _ Hm).
    unfold upload. cbn [Base64Img ID].
    destruct (strings.HasPrefix p "data:image/") eqn:Hpre; [| auto].
    cbv zeta.
    destruct (Z.leb_spec (strings.IndexByte p ","%char + 1) 0) as [Hi | Hi]; [auto |].
    destruct Hfail as [Hf | [Hf | Hf]].
    - discriminate.
    - apply IndexByte_absent in Hf. lia.
    - unfold payloadBytes in Hf. rewrite Hf. auto. }
  destruct H as (Hfs & Hsent & Hfl). repeat split; try assumption.
  - intros rest. now apply readLoop_continue.
  - rewrite (handleMessage_request _ _ _ _ _ H), <- Hsent.
    apply (request_no_file env2 (mkImageData "request" I p2) (fst r) e).
    cbn [ID]. now rewrite Hfs.
  - rewrite (handleMessage_request _ _ _ _ _ H).
    apply (request_no_file env2 (mkImageData "request" I p2) (fst r) e).
    cbn [ID]. now rewrite Hfs.
Qed.

Lemma failed_upload_stores_nothing_witness :
  json.Unmarshal (uploadMessage "abc" "data:image/png;base64,iVBORw0KGgo")
    = Some (mkImageData "upload" "abc" "data:image/png;base64,iVBORw0KGgo") /\
  payloadBytes "data:image/png;base64,iVBORw0KGgo" = None /\
  fs (fst (handleMessage no_faults
             (uploadMessage "abc" "data:image/png;base64,iVBORw0KGgo") w0)) = fs w0 /\
  sent (fst (handleMessage no_faults
               (uploadMessage "abc" "data:image/png;base64,iVBORw0KGgo") w0)) = sent w0 /\
  snd (handleMessage no_faults
         (uploadMessage "abc" "data:image/png;base64,iVBORw0KGgo") w0) = Continue.
Proof.
  assert (Hm : json.Unmarshal (uploadMessage "abc" "data:image/png;base64,iVBORw0KGgo")
    = Some (mkImageData "upload" "abc" "data:image/png;base64,iVBORw0KGgo"))
    by (vm_compute; reflexivity).
  assert (Hp : payloadBytes "data:image/png;base64,iVBORw0KGgo" = None)
    by (vm_compute; reflexivity).
  split; [exact Hm | split; [exact Hp |]].
  destruct (failed_upload_stores_nothing no_faults _ "abc" _ w0 Hm
              (or_intror (or_intror Hp))) as (H1 & H2 & H3 & _).
  auto.
Defined.

(** C4. A request with a non-empty id for which [os.Stat] finds no file
    sends nothing and ends in [continue]: the loop reads the next message.
    When the error is "does not exist" the line of main.go:84 is
    printed. *)
Theorem request_without_file (env : Faults) (m I p : string) (w : World)
    (e : os.Errno) :
  json.Unmarshal m = Some (mkImageData "request" I p) ->
  I <> EmptyString ->
  os.Stat (fs w) (imagePath I) = inl e ->
  let r := handleMessage env m w in
  fs (fst r) = fs w /\ sent (fst r) = sent w /\ snd r = Continue /\
  (forall rest,
     readLoop (Message m env :: rest) w = readLoop rest (fst r)) /\
  (os.IsNotExist e = true -> stat_fault env = false ->
   fst r = println (LogNotFound (imagePath I)) w).
Proof.
  intros Hm HI Hs r. subst r.
  destruct (request_no_file env (mkImageData "request" I p) w e Hs) as (H1 & H2 & H3).
  pose proof (handleMessage_request env _ _ _ w Hm) as E.
  rewrite <- E in H1, H2, H3.
  repeat split; try assumption.
  - intros rest. now apply readLoop_continue.
  - intros He Hf. rewrite E. unfold request. cbn [ID].
    apply String.eqb_neq in HI. rewrite HI. cbn [negb].
    change (("images/" +:+ I) +:+ ".jpg") with (imagePath I). cbv zeta.
    now rewrite Hs, He, Hf.
Qed.

Lemma request_without_file_witness :
  json.Unmarshal (requestMessage "nobody")
    = Some (mkImageData "request" "nobody" EmptyString) /\
  "nobody" <> EmptyString /\
  os.Stat (fs w0) (imagePath "nobody") = inl os.ENOENT /\
  readLoop [Message (requestMessage "nobody") no_faults] w0
  = (println (LogNotFound "images/nobody.jpg") w0, Reading).
Proof.
  assert (Hm : json.Unmarshal (requestMessage "nobody")
            = Some (mkImageData "request" "nobody" EmptyString))
    by (vm_compute; reflexivity).
  assert (HI : "nobody" <> EmptyString) by discriminate.
  assert (Hs : os.Stat (fs w0) (imagePath "nobody") = inl os.ENOENT)
    by (vm_compute; reflexivity).
  split; [exact Hm | split; [exact HI | split; [exact Hs |]]].
  destruct (request_without_file no_faults _ "nobody" EmptyString w0 os.ENOENT Hm HI Hs)
    as (_ & _ & _ & Hrest & Hlog).
  rewrite (Hrest []). cbn [readLoop]. now rewrite Hlog.
Defined.

(** C5. A message that [json.Unmarshal] refuses is logged and skipped, the
    connection stays open, and the messages after it are handled as if it
    had never arrived: the files, the responses and the state of the
    connection are the same, and the log differs by the one line of
    main.go:43. *)
Theorem malformed_message_is_skipped (env : Faults) (m : string)
    (rest : list Incoming) (w : World) :
  json.Unmarshal m = None ->
  handleMessage env m w = (println LogJSONFailed w, Continue) /\
  observable (readLoop (Message m env :: rest) w)
  = observable (readLoop rest w) /\
  exists delta,
    stdout (fst (readLoop rest w)) = (stdout w ++ delta)%list /\
    stdout (fst (readLoop (Message m env :: rest) w))
    = (stdout w ++ LogJSONFailed :: delta)%list.
Proof.
  intros Hm.
  assert (Hstep : handleMessage env m w = (println LogJSONFailed w, Continue)).
  { unfold handleMessage. now rewrite Hm. }
  split; [exact Hstep |].
  cbn [readLoop]. rewrite Hstep.
  destruct w as [f s out]. unfold println; cbn [fs sent stdout].
  destruct (readLoop_log rest f s) as (f' & s' & delta & c & H).
  rewrite !H. unfold observable; cbn [fst snd fs sent stdout].
  split; [reflexivity |].
  exists delta. split; [reflexivity |]. now rewrite <- app_assoc.
Qed.

Lemma malformed_message_is_skipped_witness :
  json.Unmarshal "upload abc" = None /\
  observable (readLoop [Message "upload abc" no_faults;
                        Message (requestMessage "abc") no_faults] w0)
  = observable (readLoop [Message (requestMessage "abc") no_faults] w0).
Proof.
  assert (Hm : json.Unmarshal "upload abc" = None) by (vm_compute; reflexivity).
  split; [exact Hm |].
  exact (proj1 (proj2 (malformed_message_is_skipped no_faults "upload abc"
                         [Message (requestMessage "abc") no_faults] w0 Hm))).
Defined.

Lemma readLoop_app (pre post : list Incoming) (w w1 : World) :
  readLoop pre w = (w1, Reading) ->
  readLoop (pre ++ post) w = readLoop post w1.
Proof.
  revert w. induction pre as [|[m env|] pre IH]; intros w; cbn.
  - now intros [= ->].
  - destruct (handleMessage env m w) as [w2 [|]]; [apply IH | discriminate].
  - discriminate.
Qed.

(** The loop is left exactly at the first failed [ReadMessage]. *)
Lemma readLoop_closed (inbound : list Incoming) (w w' : World) :
  readLoop inbound w = (w', Closed) <->
  exists pre post w1,
    inbound = (pre ++ ReadError :: post)%list /\
    readLoop pre w = (w1, Reading) /\
    w' = println LogReadMessageFailed w1.
Proof.
  split.
  - revert w. induction inbound as [|[m env|] rest IH]; intros w; cbn.
    + discriminate.
    + pose proof (handleMessage_continue env m w) as Hc.
      destruct (handleMessage env m w) as [w2 fl] eqn:Hstep.
      cbn [snd] in Hc. subst fl.
      intros H. destruct (IH _ H) as (pre & post & w1 & -> & Hpre & Hw).
      exists (Message m env :: pre), post, w1. repeat split; auto.
      cbn. now rewrite Hstep.
    + intros [= <-]. exists [], rest, w. repeat split; auto.
  - intros (pre & post & w1 & -> & Hpre & ->).
    now rewrite (readLoop_app _ _ _ _ Hpre).
Qed.

(** C6. A failed [ReadMessage] ends the loop, and nothing else does: no
    iteration leaves the loop, so the connection is closed exactly after a
    failed read.  A failed send of a response is not fatal: the [break] of
    main.go:110 leaves the [switch] only.  After an upload of [abc], a
    request for [abc] whose response cannot be sent and an upload of
    [late], the handler is still reading, nothing was sent and the file of
    [late] is stored. *)
Theorem failed_send_is_not_fatal :
  (forall rest w,
     readLoop (ReadError :: rest) w = (println LogReadMessageFailed w, Closed)) /\
  (forall env m w, snd (handleMessage env m w) = Continue) /\
  (forall inbound w w',
     readLoop inbound w = (w', Closed) <->
     exists pre post w1,
       inbound = (pre ++ ReadError :: post)%list /\
       readLoop pre w = (w1, Reading) /\
       w' = println LogReadMessageFailed w1) /\
  snd (readLoop failed_send_run w0) = Reading /\
  sent (fst (readLoop failed_send_run w0)) = [] /\
  stdout (fst (readLoop failed_send_run w0))
  = [LogSaved "abc.jpg"; LogSendFailed; LogSaved "late.jpg"] /\
  os.Stat (fs (fst (readLoop failed_send_run w0))) (imagePath "late")
  = inr (os.File "ABC").
Proof.
  split; [reflexivity |].
  split; [apply handleMessage_continue |].
  split; [apply readLoop_closed |].
  repeat split; vm_compute; reflexivity.
Qed.

Lemma upload_effect (env : Faults) (d : ImageData) (w : World) :
  sent (fst (upload env d w)) = sent w /\
  (fs (fst (upload env d w)) = fs w \/
   exists fs' k b,
     os.Create (fs w) ("images/" +:+ ID d +:+ ".jpg") = inr (fs', k) /\
     fs (fst (upload env d w)) = os.Write fs' k b).
Proof.
  unfold upload.
  destruct (strings.HasPrefix (Base64Img d) "data:image/"); [| auto].
  cbv zeta. destruct (_ <=? 0); [auto |].
  destruct (base64.DecodeString _) as [imgBytes |]; [| auto].
  destruct (os.Create _ _) as [e | [fs' k]] eqn:Hc; [auto |].
  destruct (create_fault env); [auto |].
  destruct (write_fault env) as [n |]; (split; [reflexivity | right]).
  - exists fs', k, (os.take n imgBytes). auto.
  - exists fs', k, imgBytes. auto.
Qed.

Lemma request_effect (env : Faults) (d : ImageData) (w : World) :
  fs (fst (request env d w)) = fs w /\
  (sent (fst (request env d w)) = sent w \/
   exists nd k c,
     os.Stat (fs w) ("images/" +:+ ID d +:+ ".jpg") = inr nd /\
     os.Open (fs w) ("images/" +:+ ID d +:+ ".jpg") = inr k /\
     os.Read (fs w) k (os.Size (dir_size env) (fs w) k) = inr c /\
     sent (fst (request env d w))
     = (sent w ++ ["data:image/jpg;base64," +:+ base64.EncodeToString c])%list).
Proof.
  unfold request.
  destruct (negb (String.eqb (ID d) EmptyString)); [| auto].
  change (("images/" +:+ ID d) +:+ ".jpg") with ("images/" +:+ ID d +:+ ".jpg").
  cbv zeta.
  pose proof (Stat_Open (fs w) ("images/" +:+ ID d +:+ ".jpg")) as Hso.
  destruct (os.Stat _ _) as [e | nd] eqn:Hs.
  - destruct (os.Open _ _) as [e' | k]; [| contradiction].
    destruct (_ && _); auto.
  - destruct (os.Open _ _) as [e' | k] eqn:Ho; [contradiction |].
    cbn [andb]. destruct (open_fault env); [auto |].
    cbv zeta.
    destruct (os.Read (fs w) k _) as [e' | c] eqn:Hr; [auto |].
    destruct (read_fault env && _); [auto |].
    destruct (send_fault env); [auto |].
    split; [reflexivity | right]. exists nd, k, c. auto.
Qed.

Lemma data_uri_split (x seg : string) :
  "data:image/" +:+ x +:+ String ","%char seg
  = ("data:image/" +:+ x) +:+ String ","%char seg.
Proof. now rewrite string_app_assoc. Qed.

Lemma data_uri_prefix (x : string) :
  strings.contains x ","%char = false ->
  strings.HasPrefix ("data:image/" +:+ x) "data:image/" = true /\
  strings.contains ("data:image/" +:+ x) ","%char = false.
Proof.
  intros H. split; [apply HasPrefix_app |]. rewrite contains_app, H. reflexivity.
Qed.

(** C7. Whatever the message, the only path name handed to the file system
    is [images/<id>.jpg] with the id as decoded: an upload changes the tree
    at most by creating and writing that name, a request changes nothing
    and sends at most the content found under that name, labelled
    [data:image/jpg]; the subtype written in the data URI has no influence
    on what an upload does. *)
Theorem file_name_is_id_jpg (env : Faults) (m : string) (d : ImageData) (w : World) :
  json.Unmarshal m = Some d ->
  let r := handleMessage env m w in
  (fs (fst r) = fs w \/
   exists fs' k b,
     Command d = "upload" /\
     os.Create (fs w) ("images/" +:+ ID d +:+ ".jpg") = inr (fs', k) /\
     fs (fst r) = os.Write fs' k b) /\
  (sent (fst r) = sent w \/
   exists nd k c,
     Command d = "request" /\
     os.Stat (fs w) ("images/" +:+ ID d +:+ ".jpg") = inr nd /\
     os.Open (fs w) ("images/" +:+ ID d +:+ ".jpg") = inr k /\
     os.Read (fs w) k (os.Size (dir_size env) (fs w) k) = inr c /\
     sent (fst r)
     = (sent w ++ ["data:image/jpg;base64," +:+ base64.EncodeToString c])%list) /\
  (forall x1 x2 seg,
     strings.contains x1 ","%char = false ->
     strings.contains x2 ","%char = false ->
     upload env (mkImageData (Command d) (ID d) ("data:image/" +:+ x1 +:+ String ","%char seg)) w
     = upload env (mkImageData (Command d) (ID d) ("data:image/" +:+ x2 +:+ String ","%char seg)) w).
Proof.
  intros Hm r. subst r. unfold handleMessage. rewrite Hm.
  split; [| split].
  - destruct (String.eqb_spec (Command d) "upload") as [Hu | Hu].
    + destruct (upload_effect env d w) as (_ & [H | (fs' & k & b & Hc & Hw)]); [auto |].
      right. exists fs', k, b. auto.
    + destruct (String.eqb (Command d) "request"); [| auto].
      left. apply request_effect.
  - destruct (String.eqb_spec (Command d) "upload") as [Hu | Hu].
    + left. apply upload_effect.
    + destruct (String.eqb_spec (Command d) "request") as [Hr | Hr]; [| auto].
      destruct (request_effect env d w) as (_ & [H | (nd & k & c & Hs & Ho & Hrd & Hsent)]);
        [auto |].
      right. exists nd, k, c. auto.
  - intros x1 x2 seg H1 H2.
    destruct (data_uri_prefix x1 H1) as [Hp1 Hc1].
    destruct (data_uri_prefix x2 H2) as [Hp2 Hc2].
    rewrite (upload_segment env _ _ _ _ seg w (data_uri_split x1 seg) Hp1 Hc1).
    rewrite (upload_segment env _ _ _ _ seg w (data_uri_split x2 seg) Hp2 Hc2).
    reflexivity.
Qed.

Lemma file_name_is_id_jpg_witness :
  json.Unmarshal (uploadMessage "cat" "data:image/png;base64,QUJD")
  = Some (mkImageData "upload" "cat" "data:image/png;base64,QUJD") /\
  upload no_faults (mkImageData "upload" "cat" "data:image/png;base64,QUJD") w0
  = upload no_faults (mkImageData "upload" "cat" "data:image/gif;base64,QUJD") w0 /\
  map_to_list (os.files (fs (fst (handleMessage no_faults
                 (uploadMessage "cat" "data:image/png;base64,QUJD") w0))))
  = [(["srv"; "images"; "cat.jpg"], "ABC")].
Proof.
  assert (Hm : json.Unmarshal (uploadMessage "cat" "data:image/png;base64,QUJD")
            = Some (mkImageData "upload" "cat" "data:image/png;base64,QUJD"))
    by (vm_compute; reflexivity).
  split; [exact Hm | split].
  - destruct (file_name_is_id_jpg no_faults _ _ w0 Hm) as (_ & _ & H).
    apply (H "png;base64" "gif;base64" "QUJD"); reflexivity.
  - vm_compute. reflexivity.
Defined.

(** The members of an object are stored from left to right.  The error
    flag is raised exactly by a member whose key names a field and whose
    value is neither a string nor [null], and it stays raised. *)
Lemma storeMembers_error (ms : list (string * json.Value)) :
  forall acc err,
    snd (fold_left json.storeMember ms (acc, err)) = true <->
    err = true \/
    exists k v, In (k, v) ms /\ json.lookupField k <> None /\
                v <> json.Null /\ forall s, v <> json.Str s.
Proof.
  induction ms as [|[k v] ms IH]; intros acc err; cbn [fold_left].
  - cbn. split; [auto | intros [H | (k & v & [] & _)]; exact H].
  - destruct (json.storeMember (acc, err) (k, v)) as [acc' err'] eqn:Hstep.
    rewrite IH.
    assert (Herr : err' = true <->
              err = true \/ (json.lookupField k <> None /\ v <> json.Null /\
                             forall s, v <> json.Str s)).
    { unfold json.storeMember in Hstep. cbn [fst snd] in Hstep.
      destruct (json.lookupField k) as [f |].
      - assert (Hbad : forall x : json.Value,
                  x <> json.Null -> (forall s, x <> json.Str s) ->
                  true = true <->
                  err = true \/ (Some f <> None /\ x <> json.Null /\
                                 forall s, x <> json.Str s)).
        { intros x Hn Hs. split; [intros _; right | reflexivity].
          repeat split; [discriminate | exact Hn | exact Hs]. }
        destruct v as [| b | | s | items | members];
          injection Hstep as Hacc Herr; subst err';
          try (apply Hbad; [discriminate | intros s'; discriminate]).
        + split; [auto | intros [He | (_ & Hn & _)]; [exact He | now destruct Hn]].
        + split; [auto | intros [He | (_ & _ & Hs)]; [exact He |]].
          now destruct (Hs s).
      - injection Hstep as Hacc Herr; subst err'.
        split; [auto | intros [He | (Hk & _)]; [exact He | now destruct Hk]]. }
    rewrite Herr. split.
    + intros [[H | H] | (k' & v' & Hin & H)]; [auto | right | right].
      * exists k, v. split; [now left | exact H].
      * exists k', v'. split; [now right | exact H].
    + intros [He | (k' & v' & [Heq | Hin] & Hbad)].
      * auto.
      * injection Heq as <- <-. auto.
      * right. exists k', v'. auto.
Qed.

(** A field that no member names keeps its value. *)
Lemma storeMembers_absent (ms : list (string * json.Value)) (f : json.Field) :
  (forall k v, In (k, v) ms -> json.lookupField k <> Some f) ->
  forall acc err,
    json.getField f (fst (fold_left json.storeMember ms (acc, err)))
    = json.getField f acc.
Proof.
  induction ms as [|[k v] ms IH]; intros Hf acc err; cbn [fold_left]; [reflexivity |].
  destruct (json.storeMember (acc, err) (k, v)) as [acc' err'] eqn:Hstep.
  rewrite IH by (intros k' v' H; apply (Hf k' v'); now right).
  unfold json.storeMember in Hstep. cbn [fst snd] in Hstep.
  pose proof (Hf k v (or_introl eq_refl)) as Hk.
  destruct (json.lookupField k) as [f0 |]; [| now injection Hstep as <- <-].
  destruct v; injection Hstep as <- <-; try reflexivity.
  destruct f, f0; try reflexivity; congruence.
Qed.

(** A key that names a field but carries a number, a boolean, an array
    or an object is a type error: the message is refused as a whole. *)
Example field_of_other_type_refused :
  json.Unmarshal (jq "{'command':'request','id':5}") = None /\
  json.Unmarshal (jq "{'command':'request','id':'5','ID':[]}") = None /\
  json.Unmarshal (jq "{'command':'request','id':'5','Id':null}")
  = Some (mkImageData "request" "5" EmptyString).
Proof. repeat split; vm_compute; reflexivity. Qed.




(** An upload whose payload decodes and whose file can be created and
    written stores the decoded bytes. *)
Lemma upload_saves (env : Faults) (c I p pre seg bytes : string)
    (w : World) (fs' : os.FS) (k : os.Path) :
  p = pre +:+ String ","%char seg ->
  strings.HasPrefix pre "data:image/" = true ->
  strings.contains pre ","%char = false ->
  base64.DecodeString seg = Some bytes ->
  os.Create (fs w) (imagePath I) = inr (fs', k) ->
  create_fault env = false -> write_fault env = None ->
  upload env (mkImageData c I p) w
  = (println (LogSaved (I +:+ ".jpg")) (set_fs (os.Write fs' k bytes) w), Continue).
Proof.
  intros Hp Hpre Hc Hd Hcr Hcf Hwf.
  rewrite (upload_segment env c I p pre seg w Hp Hpre Hc), Hd, Hcr, Hcf, Hwf.
  reflexivity.
Qed.

(** The request that follows a successful upload of [bytes] under a
    non-empty id. *)
Lemma request_after_write (env : Faults) (d : ImageData) (w w1 : World)
    (fs' : os.FS) (k : os.Path) (bytes : string) :
  ID d <> EmptyString ->
  os.Create (fs w) (imagePath (ID d)) = inr (fs', k) ->
  fs w1 = os.Write fs' k bytes ->
  open_fault env = false -> read_fault env = false -> send_fault env = false ->
  request env d w1
  = (println (LogSent (imagePath (ID d)))
       (WriteMessage ("data:image/jpg;base64," +:+ base64.EncodeToString bytes) w1),
     Continue).
Proof.
  intros HI Hcr Hfs Hof Hrf Hsf.
  destruct (written_file _ _ _ bytes _ Hcr) as (_ & Ho & Hr & _).
  rewrite <- Hfs in Ho, Hr.
  rewrite (request_sends env d w1 k bytes HI Ho (Hr _) Hof Hrf), Hsf. reflexivity.
Qed.

Lemma base64_uri_split (x seg : string) :
  "data:image/" +:+ x +:+ ";base64," +:+ seg
  = ("data:image/" +:+ x +:+ ";base64") +:+ String ","%char seg.
Proof.
  change (";base64," +:+ seg) with (";base64" +:+ String ","%char seg).
  now rewrite <- !string_app_assoc.
Qed.

Lemma base64_uri_prefix (x : string) :
  strings.contains x ","%char = false ->
  strings.HasPrefix ("data:image/" +:+ x +:+ ";base64") "data:image/" = true /\
  strings.contains ("data:image/" +:+ x +:+ ";base64") ","%char = false.
Proof.
  intros H. split; [apply HasPrefix_app |]. rewrite !contains_app, H. reflexivity.
Qed.




(** C2, as the code has it.  A payload that starts with [data:image/] and
    ends at its first comma is not skipped: the empty segment decodes to no
    bytes.  No response is sent and the iteration ends in [continue], and
    when the file can be created and written, [images/<id>.jpg] is created,
    or truncated, as an empty file. *)
Theorem upload_of_empty_segment (env : Faults) (m I pre : string) (w : World) :
  json.Unmarshal m = Some (mkImageData "upload" I (pre +:+ ",")) ->
  strings.HasPrefix pre "data:image/" = true ->
  strings.contains pre ","%char = false ->
  let r := handleMessage env m w in
  payloadBytes (pre +:+ ",") = Some EmptyString /\
  sent (fst r) = sent w /\ snd r = Continue /\
  (forall fs' k,
     os.Create (fs w) (imagePath I) = inr (fs', k) ->
     create_fault env = false -> write_fault env = None ->
     fst r = println (LogSaved (I +:+ ".jpg"))
               (set_fs (os.mkFS (os.cwd (fs w)) (os.dirs (fs w))
                          (<[k := EmptyString]> (os.files (fs w)))) w)).
Proof.
  intros Hm Hpre Hc r. subst r.
  rewrite (handleMessage_upload _ _ _ _ _ Hm).
  split; [| split; [| split]].
  - unfold payloadBytes.
    destruct (slice_after_first pre EmptyString ","%char Hc) as [_ ->]. reflexivity.
  - apply upload_effect.
  - rewrite (upload_segment env _ _ _ pre EmptyString w eq_refl Hpre Hc).
    cbn [base64.DecodeString base64.decodeLoop].
    destruct (os.Create _ _) as [e | [fs' k]]; [reflexivity |].
    destruct (create_fault env); [reflexivity |].
    destruct (write_fault env); reflexivity.
  - intros fs' k Hcr Hcf Hwf.
    rewrite (upload_saves env _ _ _ pre EmptyString EmptyString w fs' k
               eq_refl Hpre Hc eq_refl Hcr Hcf Hwf).
    cbn [fst]. now rewrite (Write_Create _ _ _ EmptyString _ Hcr).
Qed.

Lemma upload_of_empty_segment_witness :
  json.Unmarshal (uploadMessage "abc" "data:image/png;base64,")
  = Some (mkImageData "upload" "abc" ("data:image/png;base64" +:+ ",")) /\
  sent (fst (handleMessage no_faults
               (uploadMessage "abc" "data:image/png;base64,") w0)) = [] /\
  snd (handleMessage no_faults
         (uploadMessage "abc" "data:image/png;base64,") w0) = Continue.
Proof.
  assert (Hm : json.Unmarshal (uploadMessage "abc" "data:image/png;base64,")
            = Some (mkImageData "upload" "abc" ("data:image/png;base64" +:+ ",")))
    by (vm_compute; reflexivity).
  split; [exact Hm |].
  destruct (upload_of_empty_segment no_faults _ "abc" "data:image/png;base64" w0
              Hm eq_refl eq_refl) as (_ & H1 & H2 & _).
  split; [exact H1 | exact H2].
Defined.

(** C2 fails as stated: the upload of [data:image/png;base64,] creates the
    file [images/abc.jpg], empty, where there was none, and truncates the
    file that an earlier upload stored. *)
Lemma upload_of_empty_segment_counterexample :
  json.Unmarshal (uploadMessage "abc" "data:image/png;base64,")
  = Some (mkImageData "upload" "abc" "data:image/png;base64,") /\
  strings.slice_from "data:image/png;base64,"
    (strings.IndexByte "data:image/png;base64," ","%char + 1) = EmptyString /\
  os.Stat (fs w0) "images/abc.jpg" = inl os.ENOENT /\
  os.Stat (fs (fst (handleMessage no_faults
                      (uploadMessage "abc" "data:image/png;base64,") w0)))
    "images/abc.jpg"
  = inr (os.File EmptyString) /\
  stdout (fst (handleMessage no_faults
                 (uploadMessage "abc" "data:image/png;base64,") w0))
  = [LogSaved "abc.jpg"] /\
  os.Stat (fs (fst (readLoop
                      [Message (uploadMessage "abc" "data:image/png;base64,QUJD")
                         no_faults] w0)))
    "images/abc.jpg"
  = inr (os.File "ABC") /\
  os.Stat (fs (fst (readLoop
                      [Message (uploadMessage "abc" "data:image/png;base64,QUJD")
                         no_faults;
                       Message (uploadMessage "abc" "data:image/png;base64,")
                         no_faults] w0)))
    "images/abc.jpg"
  = inr (os.File EmptyString).
Proof.
  repeat split; vm_compute; reflexivity.
Qed.

(** The iterations that print the line of main.go:77: the payload decoded
    and the bytes were written to the file created as [images/<id>.jpg]. *)
Lemma upload_saved_inv (env : Faults) (d : ImageData) (w w' : World) (fl : Flow)
    (n : string) :
  upload env d w = (w', fl) ->
  stdout w' = (stdout w ++ [LogSaved n])%list ->
  exists bytes fs' k,
    payloadBytes (Base64Img d) = Some bytes /\
    os.Create (fs w) (imagePath (ID d)) = inr (fs', k) /\
    w' = println (LogSaved (ID d +:+ ".jpg")) (set_fs (os.Write fs' k bytes) w).
Proof.
  assert (Hnil : forall l : LogLine, stdout w <> (stdout w ++ [l])%list).
  { intros l H. rewrite <- (app_nil_r (stdout w)) in H at 1.
    apply app_inv_head in H. discriminate. }
  assert (Hone : forall l, (stdout w ++ [l])%list = (stdout w ++ [LogSaved n])%list ->
                           l = LogSaved n).
  { intros l H. apply app_inv_head in H. congruence. }
  unfold upload, payloadBytes.
  destruct (strings.HasPrefix (Base64Img d) "data:image/");
    [| intros [= <- <-] H; now apply Hnil in H].
  cbv zeta. destruct (_ <=? 0);
    [intros [= <- <-] H; apply Hone in H; discriminate |].
  destruct (base64.DecodeString _) as [imgBytes |];
    [| intros [= <- <-] H; apply Hone in H; discriminate].
  change ("images/" +:+ ID d +:+ ".jpg") with (imagePath (ID d)).
  destruct (os.Create _ _) as [e | [fs' k]];
    [intros [= <- <-] H; apply Hone in H; discriminate |].
  destruct (create_fault env);
    [intros [= <- <-] H; apply Hone in H; discriminate |].
  destruct (write_fault env);
    [intros [= <- <-] H; apply Hone in H; discriminate |].
  intros [= <- <-] _. exists imgBytes, fs', k. auto.
Qed.




(** C9, as the code has it.  An upload with the empty id and a payload that
    decodes is stored as [images/.jpg] when that file can be created and
    written, and a request with the empty id does nothing at all: no line
    is printed, nothing is sent, the iteration ends in [continue]. *)
Theorem empty_id_upload (e1 e2 : Faults) (m1 m2 pre seg bytes p2 : string)
    (w : World) (fs' : os.FS) (k : os.Path) :
  json.Unmarshal m1
  = Some (mkImageData "upload" EmptyString (pre +:+ String ","%char seg)) ->
  strings.HasPrefix pre "data:image/" = true ->
  strings.contains pre ","%char = false ->
  base64.DecodeString seg = Some bytes ->
  os.Create (fs w) "images/.jpg" = inr (fs', k) ->
  create_fault e1 = false -> write_fault e1 = None ->
  json.Unmarshal m2 = Some (mkImageData "request" EmptyString p2) ->
  handleMessage e1 m1 w
  = (println (LogSaved ".jpg") (set_fs (os.Write fs' k bytes) w), Continue) /\
  forall w', handleMessage e2 m2 w' = (w', Continue).
Proof.
  intros Hm1 Hpre Hc Hd Hcr Hcf Hwf Hm2. split.
  - rewrite (handleMessage_upload _ _ _ _ _ Hm1).
    exact (upload_saves e1 "upload" EmptyString _ pre seg bytes w fs' k
             eq_refl Hpre Hc Hd Hcr Hcf Hwf).
  - intros w'. rewrite (handleMessage_request _ _ _ _ _ Hm2). reflexivity.
Qed.

Lemma empty_id_upload_witness :
  os.Stat (fs (fst (handleMessage no_faults
                      (uploadMessage EmptyString "data:image/png;base64,QUJD") w0)))
    "images/.jpg"
  = inr (os.File "ABC") /\
  handleMessage no_faults (requestMessage EmptyString)
    (fst (handleMessage no_faults
            (uploadMessage EmptyString "data:image/png;base64,QUJD") w0))
  = (fst (handleMessage no_faults
            (uploadMessage EmptyString "data:image/png;base64,QUJD") w0), Continue).
Proof.
  set (m1 := uploadMessage EmptyString "data:image/png;base64,QUJD").
  set (m2 := requestMessage EmptyString).
  assert (Hm1 : json.Unmarshal m1
            = Some (mkImageData "upload" EmptyString
                      ("data:image/png;base64" +:+ String ","%char "QUJD")))
    by (vm_compute; reflexivity).
  assert (Hm2 : json.Unmarshal m2 = Some (mkImageData "request" EmptyString EmptyString))
    by (vm_compute; reflexivity).
  assert (Hcr : os.Create (fs w0) "images/.jpg"
            = inr (os.mkFS ["srv"] {[ []; ["srv"]; ["srv"; "images"] ]}
                     (<[ ["srv"; "images"; ".jpg"] := EmptyString ]> ∅),
                   ["srv"; "images"; ".jpg"]))
    by (vm_compute; reflexivity).
  destruct (empty_id_upload no_faults no_faults m1 m2 "data:image/png;base64" "QUJD"
              "ABC" EmptyString w0 _ _ Hm1 eq_refl eq_refl eq_refl Hcr eq_refl eq_refl
              Hm2) as [Hup Hreq].
  split; [rewrite Hup; vm_compute; reflexivity | apply Hreq].
Defined.

(** C9 fails as stated: the file stored under the empty id is not out of
    reach.  The id is pasted into the path name as it is, and the path
    names [images//.jpg] and [images/./.jpg] denote [images/.jpg]; a
    request for the id [/], or [./], is answered with the content. *)
Lemma empty_id_upload_counterexample :
  json.Unmarshal (uploadMessage EmptyString "data:image/png;base64,QUJD")
  = Some (mkImageData "upload" EmptyString "data:image/png;base64,QUJD") /\
  json.Unmarshal (requestMessage "/") = Some (mkImageData "request" "/" EmptyString) /\
  json.Unmarshal (requestMessage "./") = Some (mkImageData "request" "./" EmptyString) /\
  map_to_list (os.files (fs (fst (handleMessage no_faults
                 (uploadMessage EmptyString "data:image/png;base64,QUJD") w0))))
  = [(["srv"; "images"; ".jpg"], "ABC")] /\
  sent (fst (readLoop
               [Message (uploadMessage EmptyString "data:image/png;base64,QUJD") no_faults;
                Message (requestMessage "/") no_faults] w0))
  = ["data:image/jpg;base64,QUJD"] /\
  sent (fst (readLoop
               [Message (uploadMessage EmptyString "data:image/png;base64,QUJD") no_faults;
                Message (requestMessage "./") no_faults] w0))
  = ["data:image/jpg;base64,QUJD"] /\
  stdout (fst (readLoop
                 [Message (uploadMessage EmptyString "data:image/png;base64,QUJD") no_faults;
                  Message (requestMessage "/") no_faults] w0))
  = [LogSaved ".jpg"; LogSent "images//.jpg"].
Proof.
  repeat split; vm_compute; reflexivity.
Qed.

(** * Further properties of the handler *)

Lemma HasPrefix_inv (p s : string) :
  strings.HasPrefix s p = true -> exists t, s = p +:+ t.
Proof.
  revert s. induction p as [|c p IH]; intros s; cbn.
  - intros _. now exists s.
  - destruct s as [|x s]; [discriminate |].
    intros H. apply andb_true_iff in H as [Hc Hp].
    apply Ascii.eqb_eq in Hc as ->. destruct (IH s Hp) as [t ->]. now exists t.
Qed.

(** A payload with the prefix but without a comma is not base64: the
    colon of [data:] is outside the alphabet. *)
Lemma prefixed_payload_has_comma (p bytes : string) :
  strings.HasPrefix p "data:image/" = true ->
  payloadBytes p = Some bytes ->
  0 < strings.IndexByte p ","%char + 1.
Proof.
  intros Hpre Hb. pose proof (IndexByte_bound p ","%char) as Hi.
  destruct (Z.eq_dec (strings.IndexByte p ","%char) (-1)) as [He | Hne]; [| lia].
  exfalso. unfold payloadBytes in Hb. rewrite He in Hb.
  destruct (HasPrefix_inv _ _ Hpre) as [t ->].
  vm_compute in Hb. discriminate.
Qed.

(** What an upload does once its payload has the prefix and decodes. *)
Lemma upload_decoded (env : Faults) (c I p bytes : string) (w : World) :
  strings.HasPrefix p "data:image/" = true ->
  payloadBytes p = Some bytes ->
  upload env (mkImageData c I p) w =
    match os.Create (fs w) (imagePath I) with
    | inl _ => (println LogCreateFailed w, Continue)
    | inr (fs', file) =>
        if create_fault env then (println LogCreateFailed w, Continue)
        else
          match write_fault env with
          | Some n =>
              (println LogWriteFailed
                 (set_fs (os.Write fs' file (os.take n bytes)) w), Continue)
          | None =>
              (println (LogSaved (I +:+ ".jpg"))
                 (set_fs (os.Write fs' file bytes) w), Continue)
          end
    end.
Proof.
  intros Hpre Hb. pose proof (prefixed_payload_has_comma p bytes Hpre Hb) as Hi.
  unfold upload. cbn [Base64Img ID]. rewrite Hpre. cbv zeta.
  destruct (Z.leb_spec (strings.IndexByte p ","%char + 1) 0); [lia |].
  unfold payloadBytes in Hb. rewrite Hb. reflexivity.
Qed.

(** X1. An iteration calls [fmt.Println] at most once.  It does not call
    it, and leaves the whole world as it was, in exactly two cases: an
    upload whose payload lacks the prefix [data:image/], and a request with
    the empty id. *)
Theorem silent_iterations (env : Faults) (m : string) (w : World) :
  (stdout (fst (handleMessage env m w)) = stdout w \/
   exists l, stdout (fst (handleMessage env m w)) = (stdout w ++ [l])%list) /\
  (stdout (fst (handleMessage env m w)) = stdout w <->
   exists d, json.Unmarshal m = Some d /\
     ((Command d = "upload" /\ strings.HasPrefix (Base64Img d) "data:image/" = false) \/
      (Command d = "request" /\ ID d = EmptyString))) /\
  (stdout (fst (handleMessage env m w)) = stdout w ->
   handleMessage env m w = (w, Continue)).
Proof.
  assert (Hnil : forall l : LogLine, (stdout w ++ [l])%list <> stdout w).
  { intros l H. rewrite <- (app_nil_r (stdout w)) in H at 2.
    apply app_inv_head in H. discriminate. }
  assert (Hlog : forall (l : LogLine) (w1 : World) (fl : Flow),
            stdout w1 = stdout w ->
            let r := (println l w1, fl) in
            (stdout (fst r) = stdout w \/
             exists l', stdout (fst r) = (stdout w ++ [l'])%list) /\
            (stdout (fst r) = stdout w -> False)).
  { intros l w1 fl Hw r. subst r. unfold println; cbn [fst stdout]. rewrite Hw.
    split; [right; eauto | apply Hnil]. }
  unfold handleMessage.
  destruct (json.Unmarshal m) as [d |] eqn:Hm.
  2:{ destruct (Hlog LogJSONFailed w Continue eq_refl) as [H1 H2].
      split; [exact H1 | split; [split |]].
      - intros H. destruct (H2 H).
      - intros (d & Hd & _). discriminate.
      - intros H. destruct (H2 H). }
  assert (Hsome : forall r : World * Flow,
            ((stdout (fst r) = stdout w \/
              exists l', stdout (fst r) = (stdout w ++ [l'])%list) /\
             (stdout (fst r) = stdout w -> False)) ->
            (forall d', Some d = Some d' ->
               ~ ((Command d' = "upload" /\
                   strings.HasPrefix (Base64Img d') "data:image/" = false) \/
                  (Command d' = "request" /\ ID d' = EmptyString))) ->
            (stdout (fst r) = stdout w \/
             exists l, stdout (fst r) = (stdout w ++ [l])%list) /\
            (stdout (fst r) = stdout w <->
             exists d', Some d = Some d' /\
               ((Command d' = "upload" /\
                 strings.HasPrefix (Base64Img d') "data:image/" = false) \/
                (Command d' = "request" /\ ID d' = EmptyString))) /\
            (stdout (fst r) = stdout w -> r = (w, Continue))).
  { intros r [H1 H2] Hnot. split; [exact H1 | split; [split |]].
    - intros H. destruct (H2 H).
    - intros (d' & Hd & Hc). destruct (Hnot d' Hd Hc).
    - intros H. destruct (H2 H). }
  destruct (String.eqb_spec (Command d) "upload") as [Hu | Hu].
  - unfold upload.
    destruct (strings.HasPrefix (Base64Img d) "data:image/") eqn:Hpre.
    + cbv zeta.
      assert (Hnot : forall d', Some d = Some d' ->
                ~ ((Command d' = "upload" /\
                    strings.HasPrefix (Base64Img d') "data:image/" = false) \/
                   (Command d' = "request" /\ ID d' = EmptyString))).
      { intros d' [= <-] [[_ H] | [H _]]; congruence. }
      destruct (_ <=? 0); [apply Hsome; [now apply Hlog | exact Hnot] |].
      destruct (base64.DecodeString _); [| apply Hsome; [now apply Hlog | exact Hnot]].
      destruct (os.Create _ _) as [e | [fs' k]];
        [apply Hsome; [now apply Hlog | exact Hnot] |].
      destruct (create_fault env); [apply Hsome; [now apply Hlog | exact Hnot] |].
      destruct (write_fault env); apply Hsome; try exact Hnot; now apply Hlog.
    + cbn [fst]. split; [now left | split; [split |]]; try reflexivity.
      intros _. exists d. auto.
  - destruct (String.eqb_spec (Command d) "request") as [Hr | Hr].
    + unfold request.
      destruct (String.eqb_spec (ID d) EmptyString) as [HI | HI]; cbn [negb].
      * cbn [fst]. split; [now left | split; [split |]]; try reflexivity.
        intros _. exists d. auto.
      * assert (Hnot : forall d', Some d = Some d' ->
                  ~ ((Command d' = "upload" /\
                      strings.HasPrefix (Base64Img d') "data:image/" = false) \/
                     (Command d' = "request" /\ ID d' = EmptyString))).
        { intros d' [= <-] [[H _] | [_ H]]; congruence. }
        cbv zeta.
        destruct (_ && _); [apply Hsome; [now apply Hlog | exact Hnot] |].
        destruct (os.Open _ _); [apply Hsome; [now apply Hlog | exact Hnot] |].
        destruct (open_fault env); [apply Hsome; [now apply Hlog | exact Hnot] |].
        destruct (os.Read _ _ _); [apply Hsome; [now apply Hlog | exact Hnot] |].
        destruct (read_fault env && _); [apply Hsome; [now apply Hlog | exact Hnot] |].
        destruct (send_fault env); apply Hsome; try exact Hnot; now apply Hlog.
    + apply Hsome; [now apply Hlog |].
      intros d' [= <-] [[H _] | [H _]]; congruence.
Qed.

(** X2. An upload whose payload decodes but whose file cannot be created
    (the path does not resolve, the target is a directory, or the
    environment refuses) leaves the tree as it was, so an image stored
    before under that path is kept; it sends nothing, prints the line of
    main.go:66 and ends in [continue]. *)
Theorem upload_create_failure (env : Faults) (m I p bytes : string) (w : World) :
  json.Unmarshal m = Some (mkImageData "upload" I p) ->
  strings.HasPrefix p "data:image/" = true ->
  payloadBytes p = Some bytes ->
  (exists e, os.Create (fs w) (imagePath I) = inl e) \/ create_fault env = true ->
  handleMessage env m w = (println LogCreateFailed w, Continue).
Proof.
  intros Hm Hpre Hb Hfail.
  rewrite (handleMessage_upload _ _ _ _ _ Hm).
  rewrite (upload_decoded env _ _ _ bytes w Hpre Hb).
  destruct (os.Create _ _) as [e | [fs' k]]; [reflexivity |].
  destruct Hfail as [[e He] | ->]; [discriminate | reflexivity].
Qed.

Lemma upload_create_failure_witness :
  json.Unmarshal (uploadMessage "a/b" "data:image/png;base64,QUJD")
  = Some (mkImageData "upload" "a/b" "data:image/png;base64,QUJD") /\
  os.Create (fs w0) (imagePath "a/b") = inl os.ENOENT /\
  handleMessage no_faults (uploadMessage "a/b" "data:image/png;base64,QUJD") w0
  = (println LogCreateFailed w0, Continue).
Proof.
  assert (Hm : json.Unmarshal (uploadMessage "a/b" "data:image/png;base64,QUJD")
            = Some (mkImageData "upload" "a/b" "data:image/png;base64,QUJD"))
    by (vm_compute; reflexivity).
  assert (Hc : os.Create (fs w0) (imagePath "a/b") = inl os.ENOENT)
    by (vm_compute; reflexivity).
  split; [exact Hm | split; [exact Hc |]].
  apply (upload_create_failure no_faults _ "a/b" _ "ABC" w0 Hm eq_refl).
  - vm_compute. reflexivity.
  - left. exists os.ENOENT. exact Hc.
Defined.



(** X4. A request for a path that exists but cannot be opened or read is
    not fatal to the connection: nothing is sent, the line of main.go:90
    or of main.go:100 is printed and the iteration ends in [continue].
    The read is refused by the environment, or because [images/<id>.jpg]
    is a directory, and in both cases only when the size reported for the
    path is not 0.  When it is 0 (an empty file, or a directory that the
    file system reports with size 0) the read cannot fail and the request
    is answered with the bare label. *)
Theorem request_of_unreadable_file (env : Faults) (m I p : string) (w : World)
    (k : os.Path) :
  json.Unmarshal m = Some (mkImageData "request" I p) ->
  I <> EmptyString ->
  os.Open (fs w) (imagePath I) = inr k ->
  (open_fault env = true \/
   (os.Size (dir_size env) (fs w) k <> O /\
    (read_fault env = true \/ os.Stat (fs w) (imagePath I) = inr os.Dir)) ->
   handleMessage env m w
   = (println (if open_fault env then LogOpenFailed else LogReadFailed) w, Continue)) /\
  (open_fault env = false ->
   os.Size (dir_size env) (fs w) k = O ->
   handleMessage env m w
   = if send_fault env then (println LogSendFailed w, Continue)
     else (println (LogSent (imagePath I))
             (WriteMessage "data:image/jpg;base64," w), Continue)).
Proof.
  intros Hm HI Ho.
  rewrite (handleMessage_request _ _ _ _ _ Hm). unfold request. cbn [ID].
  apply String.eqb_neq in HI. rewrite HI. cbn [negb].
  change (("images/" +:+ I) +:+ ".jpg") with (imagePath I). cbv zeta.
  pose proof (Stat_Open (fs w) (imagePath I)) as Hso. rewrite Ho in Hso.
  destruct (os.Stat (fs w) (imagePath I)) as [e | nd] eqn:Hs; [contradiction |].
  destruct Hso as (_ & Hn & Hne). cbn [andb]. rewrite Ho.
  split.
  - intros Hfail. destruct (open_fault env); [reflexivity |].
    destruct Hfail as [H | [Hsz Hwhy]]; [discriminate |].
    unfold os.Size, os.Read in *. rewrite Hn in *.
    destruct nd as [| c |]; [| | contradiction].
    + destruct (dir_size env); [contradiction | reflexivity].
    + destruct Hwhy as [Hrf | H]; [| discriminate].
      destruct c as [|a c]; [contradiction |].
      cbn [String.length Nat.eqb negb]. rewrite Hrf. reflexivity.
  - intros Hof Hsz. rewrite Hof, Hsz. unfold os.Read.
    cbn [Nat.eqb negb]. rewrite andb_false_r. reflexivity.
Qed.

Lemma request_of_unreadable_file_witness :
  os.Stat fs_album (imagePath "album") = inr os.Dir /\
  readLoop [Message (requestMessage "album") no_faults;
            Message (requestMessage "album") no_faults] (mkWorld fs_album [] [])
  = (mkWorld fs_album [] [LogReadFailed; LogReadFailed], Reading) /\
  handleMessage (mkFaults false None false false true false 0)
    (requestMessage "album") (mkWorld fs_album [] [])
  = (mkWorld fs_album ["data:image/jpg;base64,"] [LogSent "images/album.jpg"],
     Continue).
Proof.
  assert (Hm : json.Unmarshal (requestMessage "album")
            = Some (mkImageData "request" "album" EmptyString))
    by (vm_compute; reflexivity).
  assert (Hs : os.Stat fs_album (imagePath "album") = inr os.Dir)
    by (vm_compute; reflexivity).
  assert (Ho : os.Open fs_album (imagePath "album")
               = inr ["srv"; "images"; "album.jpg"])
    by (vm_compute; reflexivity).
  split; [exact Hs | split].
  - assert (Hsz : forall out,
              os.Size (dir_size no_faults) (fs (mkWorld fs_album [] out))
                ["srv"; "images"; "album.jpg"] <> O)
      by (intros out; vm_compute; discriminate).
    cbn [readLoop].
    rewrite (proj1 (request_of_unreadable_file no_faults _ "album" EmptyString
                      (mkWorld fs_album [] []) _ Hm ltac:(discriminate) Ho)
               (or_intror (conj (Hsz []) (or_intror Hs)))).
    cbn [open_fault no_faults].
    rewrite (proj1 (request_of_unreadable_file no_faults _ "album" EmptyString
                      (println LogReadFailed (mkWorld fs_album [] [])) _ Hm
                      ltac:(discriminate) Ho)
               (or_intror (conj (Hsz _) (or_intror Hs)))).
    reflexivity.
  - exact (proj2 (request_of_unreadable_file
                    (mkFaults false None false false true false 0) _ "album"
                    EmptyString (mkWorld fs_album [] []) _ Hm ltac:(discriminate) Ho)
             eq_refl eq_refl).
Defined.

Lemma handleMessage_fs (env : Faults) (m : string) (w : World) :
  fs (fst (handleMessage env m w)) = fs w \/
  exists k b,
    (k ∉ os.dirs (fs w)) /\
    fs (fst (handleMessage env m w))
    = os.mkFS (os.cwd (fs w)) (os.dirs (fs w)) (<[k := b]> (os.files (fs w))).
Proof.
  unfold handleMessage. destruct (json.Unmarshal m) as [d |]; [| now left].
  destruct (String.eqb (Command d) "upload").
  - destruct (upload_effect env d w) as (_ & [H | (fs' & k & b & Hc & Hw)]); [now left |].
    right. exists k, b. rewrite Hw, (Write_Create _ _ _ b _ Hc).
    apply Create_inv in Hc as (_ & Hk & _). auto.
  - destruct (String.eqb (Command d) "request"); [| now left].
    left. apply request_effect.
Qed.

(** X5. Whatever arrives on the connection, the handler never removes a
    file, never creates or removes a directory and never changes the
    working directory: after any run every file that existed still
    exists, and the directories are the same. *)
Theorem run_keeps_files_and_directories (inbound : list Incoming) (w : World) :
  os.cwd (fs (fst (readLoop inbound w))) = os.cwd (fs w) /\
  os.dirs (fs (fst (readLoop inbound w))) = os.dirs (fs w) /\
  forall k, is_Some (os.files (fs w) !! k) ->
            is_Some (os.files (fs (fst (readLoop inbound w))) !! k).
Proof.
  revert w. induction inbound as [|[m env|] rest IH]; intros w; cbn [readLoop].
  - auto.
  - assert (Hstep : os.cwd (fs (fst (handleMessage env m w))) = os.cwd (fs w) /\
              os.dirs (fs (fst (handleMessage env m w))) = os.dirs (fs w) /\
              forall k, is_Some (os.files (fs w) !! k) ->
                is_Some (os.files (fs (fst (handleMessage env m w))) !! k)).
    { destruct (handleMessage_fs env m w) as [-> | (k & b & _ & ->)]; [auto |].
      cbn [os.cwd os.dirs os.files]. repeat split.
      intros k' Hk'. destruct (decide (k = k')) as [<- | Hne].
      - rewrite lookup_insert_eq. eauto.
      - now rewrite lookup_insert_ne. }
    destruct (handleMessage env m w) as [w1 [|]]; cbn [fst] in *; [| exact Hstep].
    destruct Hstep as (Hc & Hd & Hf). destruct (IH w1) as (Hc' & Hd' & Hf').
    rewrite Hc', Hd'. auto.
  - cbn. auto.
Qed.

Lemma handleMessage_sent (env : Faults) (m : string) (w : World) :
  sent (fst (handleMessage env m w)) = sent w \/
  (asksForImage m = true /\
   exists c, sent (fst (handleMessage env m w))
             = (sent w ++ ["data:image/jpg;base64," +:+ base64.EncodeToString c])%list).
Proof.
  unfold handleMessage, asksForImage.
  destruct (json.Unmarshal m) as [d |]; [| now left].
  destruct (String.eqb_spec (Command d) "upload") as [Hu | Hu].
  - left. apply upload_effect.
  - destruct (String.eqb (Command d) "request") eqn:Hr; [| now left].
    destruct (String.eqb (ID d) EmptyString) eqn:HI.
    + left. unfold request. now rewrite HI.
    + destruct (request_effect env d w) as (_ & [H | (nd & k & c & _ & _ & _ & H)]);
        [now left |].
      right. split; [reflexivity |]. now exists c.
Qed.

(** X6. Over any run the messages already sent stay as they are, each
    message sent in addition is [data:image/jpg;base64,] followed by the
    standard encoding of some bytes, and there are at most as many of
    them as inbound requests with a non-empty id: uploads, refused
    messages and unknown commands are never answered, and no request is
    answered twice. *)
Theorem run_sends_only_responses (inbound : list Incoming) (w : World) :
  exists new,
    sent (fst (readLoop inbound w)) = (sent w ++ new)%list /\
    Forall (fun r => exists c,
              r = "data:image/jpg;base64," +:+ base64.EncodeToString c) new /\
    (length new <= requestsIn inbound)%nat.
Proof.
  revert w. induction inbound as [|[m env|] rest IH]; intros w; cbn [readLoop requestsIn].
  - exists []. cbn. rewrite app_nil_r. repeat split; [constructor | lia].
  - pose proof (handleMessage_sent env m w) as Hstep.
    destruct (handleMessage env m w) as [w1 fl]; cbn [fst] in Hstep.
    assert (Hone : exists one,
              sent w1 = (sent w ++ one)%list /\
              Forall (fun r => exists c,
                        r = "data:image/jpg;base64," +:+ base64.EncodeToString c) one /\
              (length one <= (if asksForImage m then 1 else 0))%nat).
    { destruct Hstep as [-> | (-> & c & ->)].
      - exists []. rewrite app_nil_r. repeat split; [constructor | cbn; lia].
      - eexists. split; [reflexivity |]. split; [| cbn; lia].
        constructor; [now exists c | constructor]. }
    destruct Hone as (one & H1 & H2 & H3).
    destruct fl.
    + destruct (IH w1) as (new & Hn1 & Hn2 & Hn3).
      exists (one ++ new)%list. rewrite Hn1, H1, <- app_assoc.
      repeat split; [now apply Forall_app | rewrite length_app; lia].
    + exists one. cbn [fst]. repeat split; [exact H1 | exact H2 | lia].
  - exists []. cbn. rewrite app_nil_r. repeat split; [constructor | lia].
Qed.

(** The response for a content is itself a payload that the upload
    accepts, and it decodes to that content. *)
Lemma response_is_payload (c : string) :
  strings.HasPrefix ("data:image/jpg;base64," +:+ base64.EncodeToString c)
    "data:image/" = true /\
  payloadBytes ("data:image/jpg;base64," +:+ base64.EncodeToString c) = Some c.
Proof.
  split; [reflexivity |]. unfold payloadBytes.
  change ("data:image/jpg;base64," +:+ base64.EncodeToString c)
    with ("data:image/jpg;base64" +:+ String ","%char (base64.EncodeToString c)).
  destruct (slice_after_first "data:image/jpg;base64" (base64.EncodeToString c)
              ","%char eq_refl) as [_ ->].
  apply DecodeString_EncodeToString.
Qed.



(** ** Ids and path names *)

Lemma length_string_app (a b : string) :
  String.length (a +:+ b) = (String.length a + String.length b)%nat.
Proof. induction a as [|x a IH]; cbn; [reflexivity | now rewrite IH]. Qed.

Lemma string_app_inv_tail (a b c : string) : a +:+ c = b +:+ c -> a = b.
Proof.
  revert b. induction a as [|x a IH]; intros [|y b] H; cbn in H.
  - reflexivity.
  - apply (f_equal String.length) in H. cbn in H. rewrite length_string_app in H. lia.
  - apply (f_equal String.length) in H. cbn in H. rewrite length_string_app in H. lia.
  - injection H as -> H. f_equal. now apply IH.
Qed.

Lemma string_app_nil_r (s : string) : s +:+ EmptyString = s.
Proof. induction s as [|x s IH]; cbn; [reflexivity | now rewrite IH]. Qed.

(** A file name [<x>.jpg] is never empty, [.] or [..]. *)
Lemma jpg_name (x : string) :
  String.eqb (x +:+ ".jpg") EmptyString || String.eqb (x +:+ ".jpg") "." = false /\
  String.eqb (x +:+ ".jpg") ".." = false.
Proof.
  assert (H : forall s, (String.length s < 4)%nat -> String.eqb (x +:+ ".jpg") s = false).
  { intros s Hs. apply String.eqb_neq. intros E.
    apply (f_equal String.length) in E. rewrite length_string_app in E. cbn in E. lia. }
  rewrite !H by (cbn; lia). auto.
Qed.

Lemma split_plain (cur s : string) :
  strings.contains s "/"%char = false -> os.split cur s = [cur +:+ s].
Proof.
  revert cur. induction s as [|c s IH]; intros cur; cbn.
  - intros _. now rewrite string_app_nil_r.
  - destruct (Ascii.eqb c "/"%char); cbn; [discriminate |].
    intros H. rewrite (IH _ H). f_equal. now rewrite string_app_assoc.
Qed.

Lemma split_slash (cur a b : string) :
  strings.contains a "/"%char = false ->
  os.split cur (a +:+ String "/"%char b) = (cur +:+ a) :: os.split EmptyString b.
Proof.
  revert cur. induction a as [|c a IH]; intros cur; cbn.
  - intros _. now rewrite string_app_nil_r.
  - destruct (Ascii.eqb c "/"%char); cbn; [discriminate |].
    intros H. rewrite (IH _ H). f_equal. now rewrite string_app_assoc.
Qed.

(** The place of [<x>.jpg] in the directory [cur], for a name [x] without
    a slash. *)
Lemma walk_jpg (t : os.FS) (cur : os.Path) (x : string) :
  os.walk t cur [x +:+ ".jpg"] = inr (cur ++ [x +:+ ".jpg"])%list.
Proof.
  cbn [os.walk]. destruct (jpg_name x) as [-> ->]. reflexivity.
Qed.

(** A path name that starts with [images/] is resolved from the storage
    directory, when that exists. *)
Lemma resolve_in_storage (t : os.FS) (tail : string) :
  strings.contains tail Ascii.zero = false ->
  storageDir t ∈ os.dirs t ->
  os.resolve t ("images" +:+ String "/"%char tail)
  = match os.split EmptyString tail with
    | [] => inr (storageDir t)
    | comps => os.walk t (storageDir t) comps
    end.
Proof.
  intros Hz Hd. unfold os.resolve.
  assert (Hz' : strings.contains ("images" +:+ String "/"%char tail) Ascii.zero = false).
  { rewrite contains_app. cbn [strings.contains]. rewrite Hz. reflexivity. }
  assert (Hp : strings.HasPrefix ("images" +:+ String "/"%char tail) "/" = false)
    by reflexivity.
  rewrite Hz', Hp, (split_slash EmptyString "images" tail eq_refl).
  cbn [os.walk String.append].
  change (String.eqb "images" EmptyString || String.eqb "images" ".") with false.
  change (String.eqb "images" "..") with false. cbv iota.
  destruct (os.split EmptyString tail) as [|c rest]; [reflexivity |].
  fold (storageDir t). now rewrite (proj2 (node_Dir t (storageDir t)) Hd).
Qed.

(** The path names built from the ids [x], [./x], [/x] and [../x], for a
    name [x] without slash and NUL byte, when the storage directory
    exists: the first three denote [<x>.jpg] in the storage directory, the
    last one [<x>.jpg] in the working directory. *)
Lemma resolve_ids (t : os.FS) (x : string) :
  strings.contains x "/"%char = false ->
  strings.contains x Ascii.zero = false ->
  storageDir t ∈ os.dirs t ->
  os.resolve t (imagePath x) = inr (storageDir t ++ [x +:+ ".jpg"])%list /\
  os.resolve t (imagePath ("./" +:+ x)) = inr (storageDir t ++ [x +:+ ".jpg"])%list /\
  os.resolve t (imagePath ("/" +:+ x)) = inr (storageDir t ++ [x +:+ ".jpg"])%list /\
  os.resolve t (imagePath ("../" +:+ x)) = inr (os.cwd t ++ [x +:+ ".jpg"])%list.
Proof.
  intros Hs Hz Hd.
  assert (Hsj : strings.contains (x +:+ ".jpg") "/"%char = false)
    by (rewrite contains_app, Hs; reflexivity).
  assert (Hzj : strings.contains (x +:+ ".jpg") Ascii.zero = false)
    by (rewrite contains_app, Hz; reflexivity).
  assert (Hsplit : os.split EmptyString (x +:+ ".jpg") = [x +:+ ".jpg"])
    by (now rewrite split_plain).
  assert (Hzt : forall a, strings.contains a Ascii.zero = false ->
            strings.contains (a +:+ String "/"%char (x +:+ ".jpg")) Ascii.zero = false).
  { intros a Ha. rewrite contains_app, Ha. cbn [strings.contains]. now rewrite Hzj. }
  unfold imagePath. repeat split.
  - change ("images/" +:+ x +:+ ".jpg")
      with ("images" +:+ String "/"%char (x +:+ ".jpg")).
    rewrite (resolve_in_storage t _ Hzj Hd), Hsplit. exact (walk_jpg t _ x).
  - change ("images/" +:+ ("./" +:+ x) +:+ ".jpg")
      with ("images" +:+ String "/"%char ("." +:+ String "/"%char (x +:+ ".jpg"))).
    rewrite (resolve_in_storage t _ (Hzt "." eq_refl) Hd).
    rewrite (split_slash EmptyString "." _ eq_refl), Hsplit.
    cbn [String.append os.walk].
    change (String.eqb "." EmptyString || String.eqb "." ".") with true. cbv iota.
    exact (walk_jpg t _ x).
  - change ("images/" +:+ ("/" +:+ x) +:+ ".jpg")
      with ("images" +:+ String "/"%char (EmptyString +:+ String "/"%char (x +:+ ".jpg"))).
    rewrite (resolve_in_storage t _ (Hzt EmptyString eq_refl) Hd).
    rewrite (split_slash EmptyString EmptyString _ eq_refl), Hsplit.
    cbn [String.append os.walk].
    change (String.eqb EmptyString EmptyString || String.eqb EmptyString ".") with true.
    cbv iota. exact (walk_jpg t _ x).
  - change ("images/" +:+ ("../" +:+ x) +:+ ".jpg")
      with ("images" +:+ String "/"%char (".." +:+ String "/"%char (x +:+ ".jpg"))).
    rewrite (resolve_in_storage t _ (Hzt ".." eq_refl) Hd).
    rewrite (split_slash EmptyString ".." _ eq_refl), Hsplit.
    cbn [String.append os.walk].
    change (String.eqb ".." EmptyString || String.eqb ".." ".") with false.
    change (String.eqb ".." "..") with true. cbv iota.
    unfold os.parent, storageDir. rewrite removelast_last. exact (walk_jpg t _ x).
Qed.

Lemma Create_ok (t : os.FS) (name : string) (k : os.Path) :
  os.resolve t name = inr k -> k ∉ os.dirs t ->
  os.Create t name
  = inr (os.mkFS (os.cwd t) (os.dirs t) (<[k := EmptyString]> (os.files t)), k).
Proof.
  intros Hr Hk. unfold os.Create. rewrite Hr.
  destruct (os.node t k) eqn:Hn; [| reflexivity | reflexivity].
  apply node_Dir in Hn. contradiction.
Qed.

Lemma opened_after_write (t : os.FS) (name b : string) (k : os.Path) :
  os.resolve t name = inr k -> k ∉ os.dirs t ->
  os.Open (os.mkFS (os.cwd t) (os.dirs t) (<[k := b]> (os.files t))) name = inr k /\
  forall n,
    os.Read (os.mkFS (os.cwd t) (os.dirs t) (<[k := b]> (os.files t))) k
      (os.Size n (os.mkFS (os.cwd t) (os.dirs t) (<[k := b]> (os.files t))) k)
    = inr b.
Proof.
  intros Hr Hk. set (t2 := os.mkFS _ _ _).
  assert (Hr2 : os.resolve t2 name = inr k) by (now apply (resolve_stable t)).
  assert (Hn : os.node t2 k = os.File b) by (now apply node_written).
  split; [unfold os.Open; now rewrite Hr2, Hn | intros n; now apply Read_file].
Qed.

(** A request looks at the tree only through the place its path name
    denotes. *)
Lemma request_depends (env : Faults) (d : ImageData) (w w' : World) :
  sent w' = sent w ->
  os.resolve (fs w') (imagePath (ID d)) = os.resolve (fs w) (imagePath (ID d)) ->
  (forall k, os.resolve (fs w) (imagePath (ID d)) = inr k ->
             os.node (fs w') k = os.node (fs w) k) ->
  sent (fst (request env d w')) = sent (fst (request env d w)) /\
  snd (request env d w') = snd (request env d w).
Proof.
  intros Hs Hr Hn. unfold request.
  destruct (negb (String.eqb (ID d) EmptyString)); [| auto].
  change (("images/" +:+ ID d) +:+ ".jpg") with (imagePath (ID d)). cbv zeta.
  unfold os.Stat, os.Open. rewrite Hr.
  destruct (os.resolve (fs w) (imagePath (ID d))) as [e | k] eqn:Hk.
  - destruct (_ && _); cbn [fst snd sent println]; auto.
  - pose proof (Hn k eq_refl) as Hnk. unfold os.Size, os.Read. rewrite Hnk.
    destruct (os.node (fs w) k) eqn:Hnode; cbn [os.IsNotExist andb];
      cbv beta iota; destruct (open_fault env); cbv beta iota;
      rewrite ?Hnk, ?Hnode; cbv beta iota;
      try (destruct (dir_size env); cbv beta iota);
      try (match goal with
           | |- context [String.length ?c] =>
               destruct c; cbn [String.length]; cbv beta iota
           end);
      cbn [Nat.eqb negb];
      destruct (read_fault env), (send_fault env), (stat_fault env);
      cbn [andb negb fst snd sent println WriteMessage]; rewrite ?Hs; auto.
Qed.



(** An upload under an id whose path name denotes the place [k], when the
    payload decodes and nothing fails. *)
Lemma upload_at (env : Faults) (c I p bytes : string) (w : World) (k : os.Path) :
  strings.HasPrefix p "data:image/" = true ->
  payloadBytes p = Some bytes ->
  os.resolve (fs w) (imagePath I) = inr k -> k ∉ os.dirs (fs w) ->
  create_fault env = false -> write_fault env = None ->
  upload env (mkImageData c I p) w
  = (println (LogSaved (I +:+ ".jpg"))
       (set_fs (os.mkFS (os.cwd (fs w)) (os.dirs (fs w))
                  (<[k := bytes]> (os.files (fs w)))) w), Continue).
Proof.
  intros Hpre Hb Hr Hk Hcf Hwf.
  rewrite (upload_decoded env c I p bytes w Hpre Hb).
  rewrite (Create_ok _ _ _ Hr Hk), Hcf, Hwf.
  unfold os.Write; cbn [os.cwd os.dirs os.files]. now rewrite insert_insert_eq.
Qed.



Lemma jpg_name_not_images (x : string) : x +:+ ".jpg" <> "images".
Proof.
  intros H. pose proof (f_equal String.length H) as Hl.
  rewrite length_string_app in Hl. cbn in Hl.
  destruct x as [|a [|b [|c x]]]; cbn in Hl; try lia.
  cbn in H. discriminate.
Qed.



(** ** Line breaks in the base64 text *)

Lemma newline_not_in_alphabet (c : ascii) :
  base64.isNewline c = true -> base64.decodeMap c = None.
Proof.
  unfold base64.isNewline. intros H. apply orb_true_iff in H as [H | H];
    apply Ascii.eqb_eq in H; subst c; reflexivity.
Qed.

Lemma skipNewlines_strip (s : string) :
  base64.skipNewlines (stripNewlines s) = stripNewlines s.
Proof.
  induction s as [|c s IH]; cbn; [reflexivity |].
  destruct (base64.isNewline c) eqn:Hc; [exact IH |]. cbn. now rewrite Hc.
Qed.

Lemma strip_skipNewlines (s : string) :
  stripNewlines (base64.skipNewlines s) = stripNewlines s.
Proof.
  induction s as [|c s IH]; cbn; [reflexivity |].
  destruct (base64.isNewline c) eqn:Hc; [exact IH |]. cbn. now rewrite Hc.
Qed.

Lemma skipNewlines_head (s : string) :
  base64.skipNewlines s = EmptyString \/
  exists c r, base64.skipNewlines s = String c r /\ base64.isNewline c = false.
Proof.
  induction s as [|c s IH]; cbn; [now left |].
  destruct (base64.isNewline c) eqn:Hc; [exact IH |]. right. eauto.
Qed.

Lemma is_empty_skipNewlines (s : string) :
  base64.is_empty (base64.skipNewlines s) = base64.is_empty (stripNewlines s).
Proof.
  induction s as [|c s IH]; cbn; [reflexivity |].
  destruct (base64.isNewline c); [exact IH | reflexivity].
Qed.

(** The decoder reads a text as it reads the text without its line
    breaks. *)
Lemma decodeLoop_strip (s : string) :
  forall dbuf, base64.decodeLoop dbuf (stripNewlines s) = base64.decodeLoop dbuf s.
Proof.
  induction s as [|c s IH]; intros dbuf; [reflexivity |].
  cbn [stripNewlines].
  destruct (base64.isNewline c) eqn:Hc.
  - cbn [base64.decodeLoop]. rewrite (newline_not_in_alphabet c Hc), Hc. apply IH.
  - cbn [base64.decodeLoop]. rewrite Hc.
    destruct (base64.decodeMap c) as [out |].
    + destruct dbuf as [|d0 [|d1 [|d2 [|d3 dbuf]]]]; rewrite ?IH; reflexivity.
    + destruct (negb (Ascii.eqb c base64.padChar)); [reflexivity |].
      rewrite skipNewlines_strip.
      destruct dbuf as [|d0 [|d1 [|d2 [|d3 dbuf]]]]; try reflexivity.
      * rewrite <- (strip_skipNewlines s).
        destruct (skipNewlines_head s) as [-> | (c' & r & -> & Hc')]; [reflexivity |].
        cbn [stripNewlines]. rewrite Hc'.
        now rewrite skipNewlines_strip, is_empty_skipNewlines.
      * now rewrite is_empty_skipNewlines.
Qed.

(** X13. The upload does not see carriage returns and line feeds in the
    base64 text: a payload whose text is broken into lines is handled
    exactly as the payload with the unbroken text, so the same bytes are
    stored, or the same failure is met. *)
Theorem upload_ignores_line_breaks (env : Faults) (c I pre seg : string) (w : World) :
  strings.HasPrefix pre "data:image/" = true ->
  strings.contains pre ","%char = false ->
  payloadBytes (pre +:+ String ","%char seg)
  = payloadBytes (pre +:+ String ","%char (stripNewlines seg)) /\
  upload env (mkImageData c I (pre +:+ String ","%char seg)) w
  = upload env (mkImageData c I (pre +:+ String ","%char (stripNewlines seg))) w.
Proof.
  intros Hpre Hc. split.
  - unfold payloadBytes.
    destruct (slice_after_first pre seg ","%char Hc) as [_ ->].
    destruct (slice_after_first pre (stripNewlines seg) ","%char Hc) as [_ ->].
    unfold base64.DecodeString. now rewrite decodeLoop_strip.
  - rewrite (upload_segment env c I _ pre seg w eq_refl Hpre Hc).
    rewrite (upload_segment env c I _ pre (stripNewlines seg) w eq_refl Hpre Hc).
    unfold base64.DecodeString. now rewrite decodeLoop_strip.
Qed.

Lemma upload_ignores_line_breaks_witness :
  stripNewlines (String "Q" (String "U" (String "013" (String "010"
                   (String "J" (String "D" (String "010" EmptyString)))))))
  = "QUJD" /\
  payloadBytes ("data:image/png;base64" +:+ String ","%char
                  (String "Q" (String "U" (String "013" (String "010"
                     (String "J" (String "D" (String "010" EmptyString))))))))
  = Some "ABC".
Proof.
  split; [reflexivity |].
  destruct (upload_ignores_line_breaks no_faults "upload" "abc" "data:image/png;base64"
              (String "Q" (String "U" (String "013" (String "010"
                 (String "J" (String "D" (String "010" EmptyString)))))))
              w0 eq_refl eq_refl) as [H _].
  rewrite H. vm_compute. reflexivity.
Defined.

(** ** The size of the base64 text *)

(** What the decoder accepts is made of whole groups of four characters,
    line breaks aside. *)
Lemma decodeLoop_groups (s : string) :
  forall dbuf b,
    (length dbuf <= 3)%nat ->
    base64.decodeLoop dbuf s = Some b ->
    ((length dbuf + String.length (stripNewlines s)) mod 4 = 0)%nat.
Proof.
  induction s as [|c s IH]; intros dbuf b Hl; cbn [base64.decodeLoop stripNewlines].
  - destruct dbuf; [reflexivity | discriminate].
  - destruct (base64.decodeMap c) as [out |] eqn:Hm.
    + assert (Hc : base64.isNewline c = false).
      { destruct (base64.isNewline c) eqn:Hc; [| reflexivity].
        rewrite (newline_not_in_alphabet c Hc) in Hm. discriminate. }
      rewrite Hc. cbn [String.length].
      destruct dbuf as [|d0 [|d1 [|d2 [|d3 dbuf]]]]; cbn [length app] in *;
        try lia.
      * intros H. apply (IH [out] b) in H; cbn [length] in *; [| lia].
        now replace (0 + S (String.length (stripNewlines s)))%nat
          with (1 + String.length (stripNewlines s))%nat by lia.
      * intros H. apply (IH [d0; out] b) in H; cbn [length] in *; [| lia].
        now replace (1 + S (String.length (stripNewlines s)))%nat
          with (2 + String.length (stripNewlines s))%nat by lia.
      * intros H. apply (IH [d0; d1; out] b) in H; cbn [length] in *; [| lia].
        now replace (2 + S (String.length (stripNewlines s)))%nat
          with (3 + String.length (stripNewlines s))%nat by lia.
      * destruct (base64.decodeLoop [] s) as [t |] eqn:Ht; [| discriminate].
        intros _. pose proof (IH [] t ltac:(cbn; lia) Ht) as H. cbn [length] in H.
        replace (3 + S (String.length (stripNewlines s)))%nat
          with (String.length (stripNewlines s) + 1 * 4)%nat by lia.
        rewrite Nat.Div0.mod_add. exact H.
    + destruct (base64.isNewline c) eqn:Hc; [now apply IH |].
      destruct (negb (Ascii.eqb c base64.padChar)); [discriminate |].
      cbn [String.length].
      destruct dbuf as [|d0 [|d1 [|d2 [|d3 dbuf]]]]; try discriminate.
      * rewrite <- (strip_skipNewlines s).
        destruct (base64.skipNewlines s) as [|c' r]; [discriminate |].
        destruct (Ascii.eqb c' base64.padChar) eqn:Hp; [| discriminate].
        apply Ascii.eqb_eq in Hp as ->. cbn [andb].
        rewrite is_empty_skipNewlines.
        destruct (stripNewlines r) eqn:Hr; [| discriminate].
        intros _. cbn. rewrite Hr. reflexivity.
      * rewrite is_empty_skipNewlines.
        destruct (stripNewlines s); [reflexivity | discriminate].
Qed.

(** X14. Base64 text whose length, line breaks aside, is not a multiple
    of four is refused, text without its padding for instance: such an
    upload prints the line of main.go:59, stores nothing and sends
    nothing. *)
Theorem upload_of_incomplete_group (env : Faults) (m I pre seg : string) (w : World) :
  json.Unmarshal m = Some (mkImageData "upload" I (pre +:+ String ","%char seg)) ->
  strings.HasPrefix pre "data:image/" = true ->
  strings.contains pre ","%char = false ->
  (String.length (stripNewlines seg) mod 4 <> 0)%nat ->
  handleMessage env m w = (println LogBase64Failed w, Continue).
Proof.
  intros Hm Hpre Hc Hlen.
  rewrite (handleMessage_upload _ _ _ _ _ Hm).
  rewrite (upload_segment env _ _ _ pre seg w eq_refl Hpre Hc).
  destruct (base64.DecodeString seg) as [b |] eqn:Hd; [| reflexivity].
  exfalso. apply Hlen.
  exact (decodeLoop_groups seg [] b ltac:(cbn; lia) Hd).
Qed.

Lemma upload_of_incomplete_group_witness :
  json.Unmarshal (uploadMessage "abc" "data:image/png;base64,QQ")
  = Some (mkImageData "upload" "abc"
            ("data:image/png;base64" +:+ String ","%char "QQ")) /\
  handleMessage no_faults (uploadMessage "abc" "data:image/png;base64,QQ") w0
  = (println LogBase64Failed w0, Continue).
Proof.
  assert (Hm : json.Unmarshal (uploadMessage "abc" "data:image/png;base64,QQ")
            = Some (mkImageData "upload" "abc"
                      ("data:image/png;base64" +:+ String ","%char "QQ")))
    by (vm_compute; reflexivity).
  split; [exact Hm |].
  apply (upload_of_incomplete_group no_faults _ "abc" "data:image/png;base64" "QQ" w0
           Hm eq_refl eq_refl).
  cbn. discriminate.
Defined.

Lemma EncodeToString_length (c : string) :
  Z.of_nat (String.length (base64.EncodeToString c))
  = 4 * ((Z.of_nat (String.length c) + 2) / 3).
Proof.
  induction c as [ | a | a b | a b d t IH] using string_ind3.
  - reflexivity.
  - reflexivity.
  - reflexivity.
  - cbn [base64.EncodeToString String.length].
    rewrite !Nat2Z.inj_succ, IH. Z.div_mod_to_equations. lia.
Qed.

Lemma EncodeToString_no_newline (c : string) :
  stripNewlines (base64.EncodeToString c) = base64.EncodeToString c.
Proof.
  assert (Henc : forall v, base64.isNewline (base64.encode (Z.land v 63)) = false).
  { intros v. destruct (base64.isNewline _) eqn:Hn; [| reflexivity].
    apply newline_not_in_alphabet in Hn.
    rewrite decodeMap_encode in Hn by apply sextet_range. discriminate. }
  induction c as [ | a | a b | a b d t IH] using string_ind3;
    cbn [base64.EncodeToString stripNewlines]; rewrite ?Henc, ?IH; reflexivity.
Qed.

Lemma stripNewlines_app (a b : string) :
  stripNewlines (a +:+ b) = stripNewlines a +:+ stripNewlines b.
Proof.
  induction a as [|x a IH]; cbn; [reflexivity |].
  destruct (base64.isNewline x); cbn; now rewrite IH.
Qed.

(** X12. The size of a response is fixed by the size of the file: for a
    file of [n] bytes the message sent has [22 + 4 * ceil(n / 3)] bytes, the
    label and then one group of four characters for every three bytes or
    part thereof, and it holds no line break. *)
Theorem response_size (env : Faults) (m I p c : string) (w : World) (k : os.Path) :
  json.Unmarshal m = Some (mkImageData "request" I p) ->
  I <> EmptyString ->
  os.Open (fs w) (imagePath I) = inr k ->
  os.Read (fs w) k (os.Size (dir_size env) (fs w) k) = inr c ->
  open_fault env = false -> read_fault env = false -> send_fault env = false ->
  exists r,
    sent (fst (handleMessage env m w)) = (sent w ++ [r])%list /\
    Z.of_nat (String.length r) = 22 + 4 * ((Z.of_nat (String.length c) + 2) / 3) /\
    stripNewlines r = r.
Proof.
  intros Hm HI Ho Hr Hof Hrf Hsf.
  rewrite (handleMessage_request _ _ _ _ _ Hm).
  rewrite (request_sends env (mkImageData "request" I p) w k c HI Ho Hr Hof Hrf), Hsf.
  eexists. split; [reflexivity |]. split.
  - rewrite length_string_app, Nat2Z.inj_add, EncodeToString_length. reflexivity.
  - now rewrite stripNewlines_app, EncodeToString_no_newline.
Qed.

Lemma response_size_witness :
  exists r,
    sent (fst (handleMessage no_faults (requestMessage "abc")
                 (fst (handleMessage no_faults
                         (uploadMessage "abc" "data:image/png;base64,eHl6eA==") w0))))
    = [r] /\
    Z.of_nat (String.length r) = 30.
Proof.
  set (wa := fst (handleMessage no_faults
                    (uploadMessage "abc" "data:image/png;base64,eHl6eA==") w0)).
  assert (Hm : json.Unmarshal (requestMessage "abc")
            = Some (mkImageData "request" "abc" EmptyString))
    by (vm_compute; reflexivity).
  assert (Ho : os.Open (fs wa) (imagePath "abc") = inr ["srv"; "images"; "abc.jpg"])
    by (vm_compute; reflexivity).
  assert (Hr : os.Read (fs wa) ["srv"; "images"; "abc.jpg"]
                 (os.Size (dir_size no_faults) (fs wa) ["srv"; "images"; "abc.jpg"])
               = inr "xyzx")
    by (vm_compute; reflexivity).
  destruct (response_size no_faults _ "abc" EmptyString "xyzx" wa _ Hm
              ltac:(discriminate) Ho Hr eq_refl eq_refl eq_refl) as (r & Hs & Hl & _).
  exists r. split; [exact Hs | exact Hl].
Defined.

(** ** The keys of the envelope *)

Lemma byte_val_to_byte (v : Z) : 0 <= v < 256 -> byte_val (to_byte v) = v.
Proof.
  intros Hv. unfold byte_val, to_byte. change 255 with (Z.ones 8).
  rewrite Z.land_ones by lia. rewrite Z.mod_small by lia.
  rewrite N_ascii_embedding by lia. lia.
Qed.

Lemma upperByte_spec (c : ascii) :
  (utf8.in_range 97 122 (byte_val c) = true /\
   upperByte c = to_byte (byte_val c - 32) /\
   65 <= byte_val (upperByte c) <= 90) \/
  (utf8.in_range 97 122 (byte_val c) = false /\ upperByte c = c).
Proof.
  unfold upperByte. destruct (utf8.in_range 97 122 (byte_val c)) eqn:Hr; [left | now right].
  repeat split; unfold utf8.in_range in Hr; rewrite byte_val_to_byte; lia.
Qed.

(** A byte outside ASCII is met in the upper-cased key where it is met in
    the key. *)
Lemma upperByte_eqb_high (c a : ascii) :
  128 <= byte_val a -> Ascii.eqb (upperByte c) a = Ascii.eqb c a.
Proof.
  intros Ha. destruct (upperByte_spec c) as [(Hr & _ & Hu) | (_ & ->)]; [| reflexivity].
  unfold utf8.in_range in Hr.
  destruct (Ascii.eqb_spec (upperByte c) a) as [E | _];
    destruct (Ascii.eqb_spec c a) as [E' | _]; try reflexivity; subst; lia.
Qed.

Lemma foldName_toUpper (s : string) :
  forall n, json.foldName n (toUpper s) = json.foldName n s.
Proof.
  induction s as [|c s IH]; intros n; [reflexivity |].
  cbn [toUpper json.foldName]. destruct n as [|n]; [| apply IH].
  assert (H2 : strings.HasPrefix (String (upperByte c) (toUpper s))
                 (String "197"%char (String "191"%char EmptyString))
               = strings.HasPrefix (String c s)
                   (String "197"%char (String "191"%char EmptyString))).
  { cbn [strings.HasPrefix]. rewrite upperByte_eqb_high by (vm_compute; discriminate).
    destruct s as [|c1 s]; cbn [toUpper strings.HasPrefix]; [reflexivity |].
    now rewrite upperByte_eqb_high by (vm_compute; discriminate). }
  assert (H3 : strings.HasPrefix (String (upperByte c) (toUpper s))
                 (String "226"%char (String "132"%char (String "170"%char EmptyString)))
               = strings.HasPrefix (String c s)
                   (String "226"%char (String "132"%char (String "170"%char EmptyString)))).
  { cbn [strings.HasPrefix]. rewrite upperByte_eqb_high by (vm_compute; discriminate).
    destruct s as [|c1 s]; cbn [toUpper strings.HasPrefix]; [reflexivity |].
    rewrite upperByte_eqb_high by (vm_compute; discriminate).
    destruct s as [|c2 s]; cbn [toUpper strings.HasPrefix]; [reflexivity |].
    now rewrite upperByte_eqb_high by (vm_compute; discriminate). }
  rewrite H2, H3, !IH.
  destruct (upperByte_spec c) as [(Hr & Hu & Hb) | (Hr & ->)]; [| reflexivity].
  rewrite Hr.
  assert (Hr' : utf8.in_range 97 122 (byte_val (upperByte c)) = false)
    by (unfold utf8.in_range; lia).
  rewrite Hr'.
  assert (H197 : Ascii.eqb c "197"%char = false).
  { destruct (Ascii.eqb_spec c "197"%char) as [-> | _]; [| reflexivity].
    vm_compute in Hr. discriminate. }
  assert (H226 : Ascii.eqb c "226"%char = false).
  { destruct (Ascii.eqb_spec c "226"%char) as [-> | _]; [| reflexivity].
    vm_compute in Hr. discriminate. }
  cbn [strings.HasPrefix]. rewrite H197, H226. cbn [andb]. now rewrite Hu.
Qed.

Lemma lookupField_toUpper (k : string) :
  json.lookupField (toUpper k) = json.lookupField k.
Proof. unfold json.lookupField. now rewrite foldName_toUpper. Qed.

Lemma storeMember_upperKey (acc : ImageData * bool) (m : string * json.Value) :
  json.storeMember acc (upperKey m) = json.storeMember acc m.
Proof.
  unfold json.storeMember, upperKey. cbn [fst snd]. now rewrite lookupField_toUpper.
Qed.

(** X11. The keys of the envelope are matched without regard to the case
    of their ASCII letters, so an object decodes to the same envelope
    when its keys are written in upper case; and when a key that names a
    field is given again with a string, the later value is the one that
    is kept. *)
Theorem envelope_keys (ms : list (string * json.Value)) :
  json.decode (json.Object (map upperKey ms)) = json.decode (json.Object ms) /\
  (forall d k f s,
     json.decode (json.Object ms) = Some d ->
     json.lookupField k = Some f ->
     json.decode (json.Object (ms ++ [(k, json.Str s)])) = Some (json.setField f s d)).
Proof.
  split.
  - cbn [json.decode].
    assert (H : forall acc, fold_left json.storeMember (map upperKey ms) acc
                            = fold_left json.storeMember ms acc).
    { induction ms as [|m ms IH]; intros acc; cbn [map fold_left]; [reflexivity |].
      now rewrite storeMember_upperKey, IH. }
    now rewrite H.
  - intros d k f s Hd Hk. cbn [json.decode] in *. rewrite fold_left_app.
    destruct (fold_left json.storeMember ms (json.zero, false)) as [d0 err].
    destruct err; [discriminate |]. injection Hd as ->.
    cbn [fold_left]. unfold json.storeMember. cbn [fst snd]. now rewrite Hk.
Qed.

Lemma envelope_keys_witness :
  json.Unmarshal (jq "{'COMMAND':'request','Id':'a','ID':'b'}")
  = Some (mkImageData "request" "b" EmptyString) /\
  json.decode (json.Object [("command", json.Str "request"); ("id", json.Str "a");
                            ("ID", json.Str "b")])
  = Some (mkImageData "request" "b" EmptyString).
Proof.
  split; [vm_compute; reflexivity |].
  destruct (envelope_keys [("command", json.Str "request"); ("id", json.Str "a")])
    as [_ H].
  exact (H (mkImageData "request" "a" EmptyString) "ID" json.FID "b" eq_refl eq_refl).
Defined.
